(** * ExportSelectedLayersToShp: a verified model

    Shallow embedding of [ExportSelectedLayersToShp.py], a QGIS Processing
    script that writes every selected vector layer to a Shapefile.

    The file is organised as follows:
    - [Py]        : Python exceptions and the [str] methods the script calls;
    - [posixpath] : the three [os.path] functions the script calls;
    - the layer handles of the host and [get_source_name];
    - the host interface, the effect monad and [processAlgorithm];
    - the vocabulary of the statements;
    - facts about strings and paths, then the theorems on [get_source_name],
      on the export loop and on [processAlgorithm].

    A Python [str] is modelled by the bytes of its UTF-8 encoding. Every text
    the script searches for is ASCII, and an ASCII text occurs in the encoding
    exactly where it occurs in the string, so tests, cuts and pieces are the
    same in both readings. *)

From Stdlib Require Import String Ascii List ZArith Lia Bool Arith.
Import ListNotations.

Open Scope string_scope.
Open Scope Z_scope.

(** ** Python values *)

Module Py.

(** The exceptions of the model: the two that the script's own expressions
    could raise, and the one that [os.makedirs] raises. *)
Inductive exn : Type :=
| ValueError   (* [str.split] with an empty separator *)
| IndexError   (* [l[-1]] on an empty list *)
| OSError.     (* [os.makedirs] on a folder it cannot create *)

Inductive result (A : Type) : Type :=
| Ok (a : A)
| Raise (e : exn).
Arguments Ok {A} a.
Arguments Raise {A} e.

Definition bind {A B : Type} (r : result A) (k : A -> result B) : result B :=
  match r with
  | Ok a => k a
  | Raise e => Raise e
  end.

(** [len(s)] *)
Definition len (s : string) : Z := Z.of_nat (String.length s).

(** [s.startswith(prefix)] *)
Definition startswith (prefix s : string) : bool := String.prefix prefix s.

Fixpoint drop (n : nat) (s : string) : string :=
  match n, s with
  | O, _ => s
  | S _, EmptyString => EmptyString
  | S n', String _ s' => drop n' s'
  end.

Fixpoint take (n : nat) (s : string) : string :=
  match n, s with
  | O, _ => EmptyString
  | S _, EmptyString => EmptyString
  | S n', String c s' => String c (take n' s')
  end.

(** A slice bound as Python normalises it: a negative bound counts from the
    end, and every bound is clamped to [0 .. len(s)]. *)
Definition norm_index (i : Z) (s : string) : nat :=
  Z.to_nat (if i <? 0 then Z.max (len s + i) 0 else i).

(** [s[i:]] *)
Definition slice_from (i : Z) (s : string) : string := drop (norm_index i s) s.

(** [s[:j]] *)
Definition slice_to (j : Z) (s : string) : string := take (norm_index j s) s.

(** [s[i:j]] *)
Definition slice (i j : Z) (s : string) : string :=
  take (norm_index j s - norm_index i s) (drop (norm_index i s) s).

(** [s.find(sub)]: the lowest index at which [sub] occurs, or [-1]. *)
Fixpoint find (sub s : string) : Z :=
  if startswith sub s then 0
  else match s with
       | EmptyString => -1
       | String _ s' => let r := find sub s' in if r <? 0 then -1 else r + 1
       end.

(** [s.rfind(sub)]: the highest index at which [sub] occurs, or [-1]. *)
Fixpoint rfind (sub s : string) : Z :=
  match s with
  | EmptyString => if startswith sub s then 0 else -1
  | String _ s' =>
      let r := rfind sub s' in
      if 0 <=? r then r + 1
      else if startswith sub s then 0 else -1
  end.

(** [sub in s] *)
Definition contains (sub s : string) : bool := 0 <=? find sub s.

(** [s.endswith(suffix)] *)
Definition endswith (suffix s : string) : bool :=
  (len suffix <=? len s) && String.eqb (slice_from (len s - len suffix) s) suffix.

(** The loop of [str.split(sep, maxsplit)]: at most [maxcount] cuts, each at
    the next occurrence of [sep] found from the left; what remains is the
    last piece. *)
Fixpoint split_pieces (maxcount : nat) (sep s : string) : list string :=
  match maxcount with
  | O => [s]
  | S m =>
      let pos := find sep s in
      if pos <? 0 then [s]
      else slice_to pos s :: split_pieces m sep (slice_from (pos + len sep) s)
  end.

(** [s.split(sep)] with a separator given and [maxsplit] left at its default
    (no limit): a string of [n] characters has fewer than [n + 1] cuts, and
    [split_pieces_enough] shows that the bound used here is never the one
    that stops the loop. *)
Definition split (sep s : string) : result (list string) :=
  if String.eqb sep "" then Raise ValueError
  else Ok (split_pieces (String.length s) sep s).

(** [l[-1]] *)
Definition getitem_last {A : Type} (l : list A) : result A :=
  match l with
  | [] => Raise IndexError
  | x :: l' => Ok (List.last l' x)
  end.

End Py.

Import Py.

Notation "'let*' x ':=' c1 'in' c2" := (Py.bind c1 (fun x => c2))
  (at level 10, x name, c1 at level 100, c2 at level 200).

(** ** [os.path]

    [os.path] is the path module of the platform the host runs on; the model
    is the POSIX one, [posixpath]. *)

Module posixpath.

Definition sep : string := "/".
Definition extsep : string := ".".

(** [posixpath.basename(p)]:
    [i = p.rfind(sep) + 1; return p[i:]] *)
Definition basename (p : string) : string :=
  let i := rfind sep p + 1 in
  slice_from i p.

(** The [while filenameIndex < dotIndex] loop of [genericpath._splitext],
    which skips the leading dots of the file name; [n] is the number of
    iterations left, [dotIndex - filenameIndex]. *)
Fixpoint skip_leading_dots (n : nat) (p : string) (filenameIndex dotIndex : Z)
  : string * string :=
  match n with
  | O => (p, slice_to 0 p)
  | S n' =>
      if negb (String.eqb (slice filenameIndex (filenameIndex + 1) p) extsep)
      then (slice_to dotIndex p, slice_from dotIndex p)
      else skip_leading_dots n' p (filenameIndex + 1) dotIndex
  end.

(** [posixpath.splitext(p)], that is [genericpath._splitext(p, sep, None,
    extsep)]: there is no alternative separator on POSIX. *)
Definition splitext (p : string) : string * string :=
  let sepIndex := rfind sep p in
  let dotIndex := rfind extsep p in
  if sepIndex <? dotIndex then
    let filenameIndex := sepIndex + 1 in
    skip_leading_dots (Z.to_nat (dotIndex - filenameIndex)) p filenameIndex dotIndex
  else (p, slice_to 0 p).

(** [posixpath.join(a, b)] with one component [b]. *)
Definition join (a b : string) : string :=
  if startswith sep b then b
  else if String.eqb a "" || endswith sep a then a ++ b
  else a ++ sep ++ b.

End posixpath.

(** ** Layers *)

(** The class of a map layer of the host; [isinstance(layer, QgsVectorLayer)]
    is the test the script makes. *)
Inductive LayerClass : Type :=
| QgsVectorLayer
| QgsRasterLayer
| QgsMeshLayer.

Definition LayerClass_eqb (a b : LayerClass) : bool :=
  match a, b with
  | QgsVectorLayer, QgsVectorLayer => true
  | QgsRasterLayer, QgsRasterLayer => true
  | QgsMeshLayer, QgsMeshLayer => true
  | _, _ => false
  end.

Module QgsMapLayer.

(** A layer handle, as far as the script looks into it: its class and the
    results of [layer.name()], [layer.source()] and [layer.crs()]. A
    coordinate reference system is named by its authority identifier. *)
Record t : Type := mk {
  class : LayerClass;
  name : string;
  source : string;
  crs : string
}.

End QgsMapLayer.

Definition Layer : Type := QgsMapLayer.t.

Definition isinstance (layer : Layer) (c : LayerClass) : bool :=
  LayerClass_eqb (QgsMapLayer.class layer) c.

(** ** Source-name derivation (lines 113 to 131) *)

Definition get_source_name (layer : Layer) : result string :=
  let source := QgsMapLayer.source layer in
  if contains ".gpkg|" source then
    let* pieces := split "table=" source in
    let* table_name := getitem_last pieces in
    Ok table_name
  else if startswith "/" source || startswith "C:" source then
    Ok (fst (posixpath.splitext (posixpath.basename source)))
  else
    Ok (QgsMapLayer.name layer).

(** ** The host

    What the script asks of QGIS and of the operating system. [Host] is the
    state of both (the file system, the layer tree and its selection).
    [os.makedirs] either returns or raises [OSError], and leaves the host in
    some state either way (it may have made parent folders before it
    fails); the script catches nothing, so the exception leaves
    [processAlgorithm]. [os.path.exists] answers [False] where it cannot
    look, and the writer reports through its status code. *)

Record HostAPI (Host Parameters ProcessingContext : Type) : Type := {
  (** [self.parameterAsString(parameters, name, context)] *)
  parameterAsString : Parameters -> string -> ProcessingContext -> string;
  (** [self.parameterAsEnum(parameters, name, context)] *)
  parameterAsEnum : Parameters -> string -> ProcessingContext -> Z;
  (** [os.path.exists(path)] *)
  os_path_exists : string -> Host -> bool;
  (** [os.makedirs(path)] *)
  os_makedirs : string -> Host -> result unit * Host;
  (** [iface.layerTreeView().selectedLayers()] *)
  selectedLayers : Host -> list Layer;
  (** [QgsVectorFileWriter.writeAsVectorFormat(layer, fileName, fileEncoding,
      destCRS, driverName)]: a status code and an error message. *)
  writeAsVectorFormat :
    Layer -> string -> string -> string -> string -> Host -> (Z * string) * Host;
  (** [QgsVectorFileWriter.NoError] *)
  NoError : Z
}.

Arguments parameterAsString {Host Parameters ProcessingContext} _ _ _ _.
Arguments parameterAsEnum {Host Parameters ProcessingContext} _ _ _ _.
Arguments os_path_exists {Host Parameters ProcessingContext} _ _ _.
Arguments os_makedirs {Host Parameters ProcessingContext} _ _ _.
Arguments selectedLayers {Host Parameters ProcessingContext} _ _.
Arguments writeAsVectorFormat {Host Parameters ProcessingContext} _ _ _ _ _ _ _.
Arguments NoError {Host Parameters ProcessingContext} _.

(** The calls with an effect, in the order the script makes them. A writer
    call is recorded with its arguments and with what it returned. *)
Inductive Event : Type :=
| Makedirs (path : string)
| PushInfo (msg : string)
| PushWarning (msg : string)
| WriteAsVectorFormat (layer : Layer) (fileName fileEncoding destCRS driverName : string)
                      (ret : Z * string).

Record World (Host : Type) : Type := mkWorld {
  host : Host;
  trace : list Event
}.
Arguments mkWorld {Host} _ _.
Arguments host {Host} _.
Arguments trace {Host} _.

(** A Python [dict] from strings to strings, as the list of its items. *)
Definition dict : Type := list (string * string).

(** Computations of the script: they read and change the world, and end in a
    value or in an exception. *)
Definition M (Host A : Type) : Type := World Host -> result A * World Host.

Definition ret {Host A : Type} (a : A) : M Host A := fun w => (Ok a, w).

Definition bindM {Host A B : Type} (c : M Host A) (k : A -> M Host B) : M Host B :=
  fun w =>
    match c w with
    | (Ok a, w') => k a w'
    | (Raise e, w') => (Raise e, w')
    end.

Notation "x <- c1 ;; c2" := (bindM c1 (fun x => c2))
  (at level 61, c1 at next level, right associativity).
Notation "c1 ;; c2" := (bindM c1 (fun _ => c2))
  (at level 61, right associativity).

(** A pure expression that may raise. *)
Definition lift {Host A : Type} (r : result A) : M Host A := fun w => (r, w).

Definition emit {Host : Type} (e : Event) : M Host unit :=
  fun w => (Ok tt, mkWorld (host w) (trace w ++ [e])).

(** [for x in l: body(x)] *)
Fixpoint for_each {Host A : Type} (l : list A) (body : A -> M Host unit) : M Host unit :=
  match l with
  | [] => ret tt
  | x :: l' => body x ;; for_each l' body
  end.

Section ExportSelectedLayersToShp.

Context {Host Parameters ProcessingContext : Type}.
Variable api : HostAPI Host Parameters ProcessingContext.

Definition OUTPUT_FOLDER : string := "OUTPUT_FOLDER".
Definition FILENAME_BASE : string := "FILENAME_BASE".

(** *** The calls into the host, as computations *)

Definition path_exists (path : string) : M Host bool :=
  fun w => (Ok (os_path_exists api path (host w)), w).

Definition makedirs (path : string) : M Host unit :=
  fun w =>
    let (r, h) := os_makedirs api path (host w) in
    (r, mkWorld h (trace w ++ [Makedirs path])).

Definition pushInfo (msg : string) : M Host unit := emit (PushInfo msg).

Definition pushWarning (msg : string) : M Host unit := emit (PushWarning msg).

Definition layerTreeView_selectedLayers : M Host (list Layer) :=
  fun w => (Ok (selectedLayers api (host w)), w).

Definition writer (layer : Layer) (fileName fileEncoding destCRS driverName : string)
  : M Host (Z * string) :=
  fun w =>
    let (error, h) :=
      writeAsVectorFormat api layer fileName fileEncoding destCRS driverName (host w) in
    (Ok error,
     mkWorld h (trace w ++ [WriteAsVectorFormat layer fileName fileEncoding destCRS
                                                driverName error])).

(** *** The body of the export loop (lines 93 to 109) *)

Definition export_layer (output_folder : string) (filename_option : Z) (layer : Layer)
  : M Host unit :=
  filename_base <-
    (if filename_option =? 0 then ret (QgsMapLayer.name layer)
     else lift (get_source_name layer)) ;;
  let output_filename := posixpath.join output_folder (filename_base ++ ".shp") in
  error <- writer layer output_filename "UTF-8" (QgsMapLayer.crs layer) "ESRI Shapefile" ;;
  if fst error =? NoError api then
    pushInfo ("✅ Layer " ++ QgsMapLayer.name layer ++ " exported as " ++ output_filename)
  else
    pushWarning ("❌ Error exporting " ++ QgsMapLayer.name layer ++ ": " ++ snd error).

(** *** [processAlgorithm] (lines 59 to 111) *)

Definition processAlgorithm (parameters : Parameters) (context : ProcessingContext) : M Host dict :=
  let output_folder := parameterAsString api parameters OUTPUT_FOLDER context in
  let filename_option := parameterAsEnum api parameters FILENAME_BASE context in
  found <- path_exists output_folder ;;
  (if negb found then
     makedirs output_folder ;;
     pushInfo ("Output folder created: " ++ output_folder)
   else ret tt) ;;
  layers <- layerTreeView_selectedLayers ;;
  let selected_layers := filter (fun layer => isinstance layer QgsVectorLayer) layers in
  match selected_layers with
  | [] =>
      pushWarning "No vector layers selected for export." ;;
      ret []
  | _ :: _ =>
      for_each selected_layers (export_layer output_folder filename_option) ;;
      ret []
  end.

End ExportSelectedLayersToShp.

(** ** Reading a trace *)

Definition is_writer_call (e : Event) : bool :=
  match e with
  | WriteAsVectorFormat _ _ _ _ _ _ => true
  | _ => false
  end.

Definition is_makedirs (e : Event) : bool :=
  match e with
  | Makedirs _ => true
  | _ => false
  end.

(** The writer calls of a trace, in order. *)
Definition writer_calls (tr : list Event) : list Event := filter is_writer_call tr.

(** The layers handed to the writer, in order. *)
Fixpoint written_layers (tr : list Event) : list Layer :=
  match tr with
  | [] => []
  | WriteAsVectorFormat layer _ _ _ _ _ :: tr' => layer :: written_layers tr'
  | _ :: tr' => written_layers tr'
  end.

(** ** A small host to run the script on

    Its state is the list of the paths that exist and the selection;
    [os.makedirs] raises on the empty path and under [/dev/null], where no
    folder can be made, and the writer fails on a layer without a reference
    system. *)

Module ToyHost.

Record state : Type := mk {
  paths : list string;
  selection : list Layer
}.

Definition api : HostAPI state (string * Z) unit := {|
  parameterAsString := fun p _ _ => fst p;
  parameterAsEnum := fun p _ _ => snd p;
  os_path_exists := fun path h => existsb (String.eqb path) (paths h);
  os_makedirs := fun path h =>
    if String.eqb path "" || startswith "/dev/null/" path then (Raise OSError, h)
    else (Ok tt, mk (path :: paths h) (selection h));
  selectedLayers := selection;
  writeAsVectorFormat := fun layer fileName _ destCRS _ h =>
    if String.eqb destCRS "" then ((6, "no reference system"), h)
    else ((0, ""), mk (fileName :: paths h) (selection h));
  NoError := 0
|}.

Definition roads : Layer :=
  QgsMapLayer.mk QgsVectorLayer "roads" "/data/town.gpkg|layername=r|table=roads" "EPSG:4326".
Definition rivers : Layer :=
  QgsMapLayer.mk QgsVectorLayer "rivers" "/data/water/rivers.v2.shp" "".
Definition relief : Layer :=
  QgsMapLayer.mk QgsRasterLayer "relief" "/data/relief.tif" "EPSG:4326".
Definition scratch : Layer :=
  QgsMapLayer.mk QgsVectorLayer "scratch" "Point?crs=EPSG:4326" "EPSG:4326".

Definition mixed : list Layer := [roads; relief; rivers; scratch].

Definition town_roads : Layer :=
  QgsMapLayer.mk QgsVectorLayer "town roads" "/data/town.gpkg|layername=roads" "EPSG:4326".
Definition roads_copy : Layer :=
  QgsMapLayer.mk QgsVectorLayer "roads" "/backup/roads_2019.shp" "EPSG:4326".

Definition start (ps : list string) (sel : list Layer) : World state :=
  mkWorld (mk ps sel) [].

End ToyHost.

(** ** Vocabulary of the statements *)

(** [occurs_at sub s i]: the text of [sub] stands in [s] at index [i]. *)
Definition occurs_at (sub s : string) (i : nat) : Prop :=
  (i <= String.length s)%nat /\ startswith sub (drop i s) = true.

(** A separator no proper end of which opens it: its occurrences cannot
    overlap. *)
Definition borderless (sep : string) : Prop :=
  forall k, (0 < k < String.length sep)%nat -> startswith (drop k sep) sep = false.

Definition borderlessb (sep : string) : bool :=
  forallb (fun k => negb (startswith (drop k sep) sep))
          (seq 1 (String.length sep - 1)).

(** A string of dots only. *)
Fixpoint all_dots (s : string) : bool :=
  match s with
  | EmptyString => true
  | String c s' => Ascii.eqb c "."%char && all_dots s'
  end.

(** [b] is the base name of the path [p]: what stands after the last slash
    of [p], and [p] itself when it has no slash. *)
Definition is_base_name (p b : string) : Prop :=
  contains "/" b = false /\
  exists dir, p = dir ++ b /\ (dir = "" \/ exists d, dir = d ++ "/").

(** [stem] is the file name [b] with its extension stripped: the extension
    starts at the last dot of [b], unless only dots stand before that dot, in
    which case [b] has no extension. *)
Definition is_stem (b stem : string) : Prop :=
  (stem = b /\
   exists dots rest, b = dots ++ rest /\ all_dots dots = true /\ contains "." rest = false)
  \/
  (all_dots stem = false /\
   exists e, b = stem ++ "." ++ e /\ contains "." e = false).

(** The base name of the output file of a layer: the display name when the
    filename basis is [0], the name derived from the source otherwise. *)
Definition derived_base_name (filename_option : Z) (layer : Layer) (base : string) : Prop :=
  (filename_option = 0 /\ base = QgsMapLayer.name layer) \/
  (filename_option <> 0 /\ get_source_name layer = Ok base).

(** The message that answers a writer result: an info message on [NoError],
    a warning that holds the error message otherwise. *)
Definition reports (no_error : Z) (ret : Z * string) (e : Event) : Prop :=
  (fst ret = no_error /\ exists msg, e = PushInfo msg) \/
  (fst ret <> no_error /\ exists msg, e = PushWarning msg /\ contains (snd ret) msg = true).

(** The message of lines 106 to 109, word for word. *)
Definition report_of (no_error : Z) (layer : Layer) (output_filename : string)
  (error : Z * string) : Event :=
  if fst error =? no_error then
    PushInfo ("✅ Layer " ++ QgsMapLayer.name layer ++ " exported as " ++ output_filename)
  else
    PushWarning ("❌ Error exporting " ++ QgsMapLayer.name layer ++ ": " ++ snd error).

Definition is_creation_message (e : Event) : bool :=
  match e with
  | PushInfo msg => startswith "Output folder created: " msg
  | _ => false
  end.

Section HostVocabulary.

Context {Host Parameters ProcessingContext : Type}.
Variable api : HostAPI Host Parameters ProcessingContext.

(** The folder step (lines 76 to 78) on the host: nothing when the folder
    exists, [os.makedirs] otherwise. *)
Definition folder_step (output_folder : string) (h : Host) : result unit * Host :=
  if os_path_exists api output_folder h then (Ok tt, h)
  else os_makedirs api output_folder h.

(** The host once the script is past its folder step. *)
Definition host_after_folder (output_folder : string) (h : Host) : Host :=
  snd (folder_step output_folder h).

(** The selection of the host, restricted to the vector layers. *)
Definition selected_vector_layers (h : Host) : list Layer :=
  filter (fun layer => isinstance layer QgsVectorLayer) (selectedLayers api h).

Definition output_folder_of (parameters : Parameters) (context : ProcessingContext) : string :=
  parameterAsString api parameters OUTPUT_FOLDER context.

Definition filename_option_of (parameters : Parameters) (context : ProcessingContext) : Z :=
  parameterAsEnum api parameters FILENAME_BASE context.

(** What the folder step leaves in the trace: nothing when the folder
    exists; otherwise the call of [os.makedirs], and the info message when
    that call returns. *)
Definition folder_events (output_folder : string) (h : Host) : list Event :=
  if os_path_exists api output_folder h then []
  else match fst (os_makedirs api output_folder h) with
       | Ok _ => [Makedirs output_folder;
                  PushInfo ("Output folder created: " ++ output_folder)]
       | Raise _ => [Makedirs output_folder]
       end.

(** The writer calls of the loop, from host to host: [writer_chain folder
    option h layers calls h'] says that [calls] are the calls of the writer
    for [layers], one per layer and in their order, each made in the host
    that the call before it left and each recorded with what the writer
    returned there; [h'] is the host after the last one. *)
Inductive writer_chain (output_folder : string) (filename_option : Z)
  : Host -> list Layer -> list Event -> Host -> Prop :=
| writer_chain_nil (h : Host) :
    writer_chain output_folder filename_option h [] [] h
| writer_chain_cons (h : Host) (layer : Layer) (layers : list Layer) (base : string)
    (calls : list Event) (h' : Host) :
    derived_base_name filename_option layer base ->
    writer_chain output_folder filename_option
      (snd (writeAsVectorFormat api layer
              (posixpath.join output_folder (base ++ ".shp"))
              "UTF-8" (QgsMapLayer.crs layer) "ESRI Shapefile" h))
      layers calls h' ->
    writer_chain output_folder filename_option h (layer :: layers)
      (WriteAsVectorFormat layer (posixpath.join output_folder (base ++ ".shp"))
         "UTF-8" (QgsMapLayer.crs layer) "ESRI Shapefile"
         (fst (writeAsVectorFormat api layer
                 (posixpath.join output_folder (base ++ ".shp"))
                 "UTF-8" (QgsMapLayer.crs layer) "ESRI Shapefile" h))
       :: calls)
      h'.

(** What the loop leaves in the trace for one layer: one writer call, with
    what the writer returned in some state of the host, then one message. *)
Definition layer_segment (output_folder : string) (filename_option : Z)
  (layer : Layer) (seg : list Event) : Prop :=
  exists base h,
    derived_base_name filename_option layer base /\
    let output_filename := posixpath.join output_folder (base ++ ".shp") in
    let ret := fst (writeAsVectorFormat api layer output_filename "UTF-8"
                      (QgsMapLayer.crs layer) "ESRI Shapefile" h) in
    seg = [WriteAsVectorFormat layer output_filename
             "UTF-8" (QgsMapLayer.crs layer) "ESRI Shapefile" ret;
           report_of (NoError api) layer output_filename ret].

(** The same host with another [os.makedirs]. *)
Definition with_makedirs (f : string -> Host -> result unit * Host)
  : HostAPI Host Parameters ProcessingContext :=
  {| parameterAsString := parameterAsString api;
     parameterAsEnum := parameterAsEnum api;
     os_path_exists := os_path_exists api;
     os_makedirs := f;
     selectedLayers := selectedLayers api;
     writeAsVectorFormat := writeAsVectorFormat api;
     NoError := NoError api |}.

End HostVocabulary.

(** * The model on small inputs

    Each line is the value Python gives for the same expression. *)

Section Readings.

Example split_commas : split "," "a,b,,c," = Ok ["a"; "b"; ""; "c"; ""].
Proof. reflexivity. Qed.

Example split_adjacent : split "ab" "abab" = Ok [""; ""; ""].
Proof. reflexivity. Qed.

Example split_empty_string : split "table=" "" = Ok [""].
Proof. reflexivity. Qed.

Example split_empty_separator : split "" "abc" = Raise ValueError.
Proof. reflexivity. Qed.

Example find_and_rfind :
  (find "b" "abcb", rfind "b" "abcb", find "z" "abc", rfind "z" "abc", rfind "" "abc")
  = (1, 3, -1, -1, 3).
Proof. reflexivity. Qed.

Example slices :
  (slice_from (-2) "abcde", slice_to (-2) "abcde", slice 1 3 "abcde", slice_from 9 "abc")
  = ("de", "abc", "bc", "").
Proof. reflexivity. Qed.

Example basename_of_file : posixpath.basename "/data/water/rivers.v2.shp" = "rivers.v2.shp".
Proof. reflexivity. Qed.

Example basename_of_folder : posixpath.basename "/data/water/" = "".
Proof. reflexivity. Qed.

Example splitext_last_dot : posixpath.splitext "rivers.v2.shp" = ("rivers.v2", ".shp").
Proof. reflexivity. Qed.

Example splitext_leading_dots :
  (posixpath.splitext ".profile", posixpath.splitext "..hid.den", posixpath.splitext "a/b.c/d")
  = ((".profile", ""), ("..hid", ".den"), ("a/b.c/d", "")).
Proof. reflexivity. Qed.

Example join_cases :
  (posixpath.join "/out" "a.shp", posixpath.join "/out/" "a.shp",
   posixpath.join "" "a.shp", posixpath.join "/out" "/tmp/a.shp")
  = ("/out/a.shp", "/out/a.shp", "a.shp", "/tmp/a.shp").
Proof. reflexivity. Qed.

Example source_name_of_table : get_source_name ToyHost.roads = Ok "roads".
Proof. reflexivity. Qed.

Example source_name_of_file : get_source_name ToyHost.rivers = Ok "rivers.v2".
Proof. reflexivity. Qed.

End Readings.

(** * Facts about Python strings *)

Section StringFacts.

Local Open Scope nat_scope.
Local Arguments startswith : simpl never.

Lemma append_nil_r (s : string) : s ++ "" = s.
Proof. induction s as [|c s IH]; simpl; [reflexivity | now rewrite IH]. Qed.

Lemma append_assoc (s t u : string) : (s ++ t) ++ u = s ++ t ++ u.
Proof. induction s as [|c s IH]; simpl; [reflexivity | now rewrite IH]. Qed.

Lemma length_append (s t : string) :
  String.length (s ++ t) = String.length s + String.length t.
Proof. induction s as [|c s IH]; simpl; [reflexivity | now rewrite IH]. Qed.

Lemma length_zero (s : string) : String.length s = 0 -> s = "".
Proof. destruct s; [reflexivity | discriminate]. Qed.

(** *** [take] and [drop] *)

Lemma drop_0 (s : string) : drop 0 s = s.
Proof. destruct s; reflexivity. Qed.

Lemma take_drop (n : nat) (s : string) : take n s ++ drop n s = s.
Proof.
  revert s; induction n as [|n IH]; intros [|c s]; simpl; try reflexivity.
  now rewrite IH.
Qed.

Lemma length_drop (n : nat) (s : string) :
  String.length (drop n s) = String.length s - n.
Proof. revert s; induction n as [|n IH]; intros [|c s]; simpl; auto. Qed.

Lemma length_take (n : nat) (s : string) :
  n <= String.length s -> String.length (take n s) = n.
Proof.
  revert s; induction n as [|n IH]; intros [|c s]; simpl; intros H; try lia.
  rewrite IH; lia.
Qed.

Lemma drop_drop (n m : nat) (s : string) : drop n (drop m s) = drop (m + n) s.
Proof.
  revert s; induction m as [|m IH]; intros s; simpl.
  - reflexivity.
  - destruct s as [|c s]; [now destruct n | apply IH].
Qed.

Lemma drop_append_length (p r : string) : drop (String.length p) (p ++ r) = r.
Proof. induction p as [|c p IH]; simpl; [reflexivity | exact IH]. Qed.

Lemma take_append_length (p r : string) : take (String.length p) (p ++ r) = p.
Proof. induction p as [|c p IH]; simpl; [now destruct r | now rewrite IH]. Qed.

Lemma drop_append_lt (k : nat) (p r : string) :
  k <= String.length p -> drop k (p ++ r) = drop k p ++ r.
Proof.
  revert p; induction k as [|k IH]; intros p H.
  - now rewrite !drop_0.
  - destruct p as [|c p]; simpl in *; [lia | apply IH; lia].
Qed.

(** *** [startswith] *)

Lemma startswith_iff (p s : string) :
  startswith p s = true <-> exists r, s = p ++ r.
Proof.
  unfold startswith. revert s; induction p as [|a p IH]; intros s; simpl.
  - destruct s; split; eauto.
  - destruct s as [|b s]; simpl.
    + split; [discriminate | intros [r Hr]; discriminate].
    + destruct (ascii_dec a b) as [->|Hab].
      * rewrite IH. split; intros [r Hr]; exists r; congruence.
      * split; [discriminate | intros [r Hr]; congruence].
Qed.

Lemma startswith_append (p r : string) : startswith p (p ++ r) = true.
Proof. apply startswith_iff. now exists r. Qed.

Lemma startswith_length (p s : string) :
  startswith p s = true -> String.length p <= String.length s.
Proof. intros [r ->]%startswith_iff. rewrite length_append. lia. Qed.

(** Two strings that open the same text: the shorter opens the longer. *)
Lemma append_eq_startswith (a x b y : string) :
  a ++ x = b ++ y -> String.length a <= String.length b -> startswith a b = true.
Proof.
  revert b; induction a as [|c a IH]; intros b E L.
  - unfold startswith. now destruct b.
  - destruct b as [|d b]; simpl in *; [lia|].
    injection E as -> E. unfold startswith; simpl.
    destruct (ascii_dec d d) as [_|N]; [|congruence].
    apply IH; [exact E | lia].
Qed.

(** *** Occurrences *)

Lemma of_nat_ltb_0 (i : nat) : (Z.of_nat i <? 0)%Z = false.
Proof. apply Z.ltb_ge. lia. Qed.

Lemma occurs_at_iff (sub s : string) (i : nat) :
  occurs_at sub s i <->
  exists pre post, s = pre ++ sub ++ post /\ String.length pre = i.
Proof.
  split.
  - intros [Hi [post Hp]%startswith_iff].
    exists (take i s), post. split.
    + rewrite <- Hp. symmetry; apply take_drop.
    + now apply length_take.
  - intros (pre & post & -> & <-). split.
    + rewrite length_append. lia.
    + rewrite drop_append_length. apply startswith_append.
Qed.

Lemma occurs_at_0 (sub s : string) : occurs_at sub s 0 <-> startswith sub s = true.
Proof. unfold occurs_at. rewrite drop_0. split; [tauto | split; [lia | assumption]]. Qed.

Lemma occurs_at_S (sub : string) (c : ascii) (s : string) (i : nat) :
  occurs_at sub (String c s) (S i) <-> occurs_at sub s i.
Proof. unfold occurs_at; simpl. split; intros [? ?]; split; auto; lia. Qed.

Lemma occurs_at_bound (sub s : string) (i : nat) :
  occurs_at sub s i -> i + String.length sub <= String.length s.
Proof.
  intros [Hi H%startswith_length]. rewrite length_drop in H. lia.
Qed.

Lemma occurs_at_drop (sub s : string) (k i : nat) :
  k <= String.length s -> (occurs_at sub (drop k s) i <-> occurs_at sub s (k + i)).
Proof.
  intros Hk. unfold occurs_at. rewrite drop_drop, length_drop.
  split; intros [? ?]; split; auto; lia.
Qed.

(** Two occurrences closer than the length of [sub]: a proper end of [sub]
    opens [sub]. *)
Lemma occurs_at_overlap (sub s : string) (i k : nat) :
  occurs_at sub s i -> occurs_at sub s (i + k) -> k <= String.length sub ->
  startswith (drop k sub) sub = true.
Proof.
  intros [Hi [post Hp]%startswith_iff] [Hk [post' Hp']%startswith_iff] L.
  rewrite <- drop_drop, Hp, drop_append_lt in Hp' by exact L.
  apply (append_eq_startswith _ post _ post'); [exact Hp'|].
  rewrite length_drop. lia.
Qed.

(** *** [find] and [rfind] *)

Lemma find_eq (sub s : string) :
  find sub s =
  if startswith sub s then 0%Z
  else match s with
       | EmptyString => (-1)%Z
       | String _ s' => let r := find sub s' in if (r <? 0)%Z then (-1)%Z else (r + 1)%Z
       end.
Proof. destruct s; reflexivity. Qed.

Lemma find_spec (sub s : string) :
  (find sub s = (-1)%Z /\ forall i, ~ occurs_at sub s i) \/
  (exists i, find sub s = Z.of_nat i /\ occurs_at sub s i /\
             forall j, occurs_at sub s j -> i <= j).
Proof.
  induction s as [|c s IH]; rewrite find_eq.
  - destruct (startswith sub "") eqn:E.
    + right. exists 0. split; [reflexivity|]. split; [now apply occurs_at_0 | lia].
    + left. split; [reflexivity|]. intros i [Hi H]. simpl in Hi.
      assert (i = 0) as -> by lia. rewrite drop_0 in H. congruence.
  - destruct (startswith sub (String c s)) eqn:E.
    + right. exists 0. split; [reflexivity|]. split; [now apply occurs_at_0 | lia].
    + cbv zeta. destruct IH as [[-> No] | (i & -> & Hi & Min)].
      * left. split; [reflexivity|]. intros [|j] H.
        -- apply occurs_at_0 in H. congruence.
        -- apply occurs_at_S in H. now apply (No j).
      * right. exists (S i).
        rewrite of_nat_ltb_0.
        split; [lia|]. split; [now apply occurs_at_S|].
        intros [|j] H.
        -- apply occurs_at_0 in H. congruence.
        -- apply occurs_at_S in H. apply Min in H. lia.
Qed.

Lemma rfind_spec (sub s : string) :
  (rfind sub s = (-1)%Z /\ forall i, ~ occurs_at sub s i) \/
  (exists i, rfind sub s = Z.of_nat i /\ occurs_at sub s i /\
             forall j, occurs_at sub s j -> j <= i).
Proof.
  induction s as [|c s IH]; simpl.
  - destruct (startswith sub "") eqn:E.
    + right. exists 0. split; [reflexivity|]. split; [now apply occurs_at_0|].
      intros j [Hj _]. exact Hj.
    + left. split; [reflexivity|]. intros i [Hi H]. simpl in Hi.
      assert (i = 0) as -> by lia. rewrite drop_0 in H. congruence.
  - destruct IH as [[-> No] | (i & -> & Hi & Max)].
    + simpl. destruct (startswith sub (String c s)) eqn:E.
      * right. exists 0. split; [reflexivity|]. split; [now apply occurs_at_0|].
        intros [|j] H; [lia|]. apply occurs_at_S in H. now destruct (No j).
      * left. split; [reflexivity|]. intros [|j] H.
        -- apply occurs_at_0 in H. congruence.
        -- apply occurs_at_S in H. now apply (No j).
    + right. exists (S i).
      replace (0 <=? Z.of_nat i)%Z with true by (symmetry; apply Z.leb_le; lia).
      split; [lia|]. split; [now apply occurs_at_S|].
      intros [|j] H; [lia|]. apply occurs_at_S in H. apply Max in H. lia.
Qed.

Lemma contains_true_iff (sub s : string) :
  contains sub s = true <-> exists i, occurs_at sub s i.
Proof.
  unfold contains. destruct (find_spec sub s) as [[-> No] | (i & -> & Hi & _)].
  - split; [discriminate | intros [i Hi]; now destruct (No i)].
  - split; [now exists i | intros _; apply Z.leb_le; lia].
Qed.

Lemma contains_false_iff (sub s : string) :
  contains sub s = false <-> forall i, ~ occurs_at sub s i.
Proof.
  rewrite <- Bool.not_true_iff_false, contains_true_iff.
  split; [intros N i Hi; apply N; now exists i | intros N [i Hi]; now apply (N i)].
Qed.

(** *** Slices with bounds that are not negative *)

Lemma norm_index_of_nat (k : nat) (s : string) : norm_index (Z.of_nat k) s = k.
Proof.
  unfold norm_index.
  rewrite of_nat_ltb_0.
  apply Nat2Z.id.
Qed.

Lemma slice_from_of_nat (k : nat) (s : string) : slice_from (Z.of_nat k) s = drop k s.
Proof. unfold slice_from. now rewrite norm_index_of_nat. Qed.

Lemma slice_to_of_nat (k : nat) (s : string) : slice_to (Z.of_nat k) s = take k s.
Proof. unfold slice_to. now rewrite norm_index_of_nat. Qed.

(** *** [split] *)

Lemma startswith_nil (sep : string) : sep <> "" -> startswith sep "" = false.
Proof. destruct sep; [congruence | reflexivity]. Qed.

Lemma find_nil (sep : string) : sep <> "" -> find sep "" = (-1)%Z.
Proof. intros H. rewrite find_eq, startswith_nil by exact H. reflexivity. Qed.

Lemma split_pieces_not_nil (m : nat) (sep s : string) : split_pieces m sep s <> [].
Proof. destruct m; simpl; [|destruct (find sep s <? 0)%Z]; discriminate. Qed.

(** The cut after the first occurrence leaves a shorter string. *)
Lemma length_after_cut (sep s : string) (i : nat) :
  sep <> "" -> occurs_at sep s i ->
  String.length (drop (i + String.length sep) s) < String.length s.
Proof.
  intros Hsep H%occurs_at_bound. rewrite length_drop.
  destruct sep; [congruence | simpl in *; lia].
Qed.

(** No bound at or above the length of the string stops the loop. *)
Lemma split_pieces_enough (sep : string) (m1 m2 : nat) (s : string) :
  sep <> "" -> String.length s <= m1 -> String.length s <= m2 ->
  split_pieces m1 sep s = split_pieces m2 sep s.
Proof.
  intros Hsep. revert m2 s; induction m1 as [|m1 IH]; intros m2 s H1 H2.
  - assert (s = "") as -> by (apply length_zero; lia).
    destruct m2; cbn [split_pieces]; [reflexivity|]. now rewrite find_nil.
  - destruct m2 as [|m2].
    + assert (s = "") as -> by (apply length_zero; lia).
      cbn [split_pieces]. now rewrite find_nil.
    + cbn [split_pieces].
      destruct (find_spec sep s) as [[-> _] | (i & -> & Hi & _)]; [reflexivity|].
      rewrite of_nat_ltb_0.
      f_equal. unfold len. rewrite <- Nat2Z.inj_add, slice_from_of_nat.
      pose proof (length_after_cut sep s i Hsep Hi).
      apply IH; lia.
Qed.

(** [split] as the unbounded loop it is. *)
Lemma split_unfold (sep s : string) :
  sep <> "" ->
  split sep s =
  if (find sep s <? 0)%Z then Ok [s]
  else let* rest := split sep (slice_from (find sep s + len sep) s) in
       Ok (slice_to (find sep s) s :: rest).
Proof.
  intros Hsep. unfold split.
  apply String.eqb_neq in Hsep as E. rewrite E. apply String.eqb_neq in E.
  destruct (find_spec sep s) as [[F _] | (i & F & Hi & _)].
  - rewrite F. destruct (String.length s); cbn [split_pieces]; rewrite ?F; reflexivity.
  - rewrite F.
    rewrite of_nat_ltb_0.
    cbn [bind]. f_equal.
    pose proof (occurs_at_bound _ _ _ Hi) as B.
    pose proof (length_after_cut sep s i Hsep Hi) as L.
    destruct (String.length s) as [|n] eqn:En.
    + destruct sep; [congruence | simpl in B; lia].
    + cbn [split_pieces]. rewrite F.
      rewrite of_nat_ltb_0.
      f_equal. unfold len. rewrite <- Nat2Z.inj_add, slice_from_of_nat in *.
      apply split_pieces_enough; [exact Hsep | lia | lia].
Qed.

Lemma getitem_last_cons {A : Type} (a : A) (l : list A) :
  l <> [] -> getitem_last (a :: l) = getitem_last l.
Proof.
  destruct l as [|b l]; [congruence|]. intros _. unfold getitem_last. f_equal.
  revert a b; induction l as [|c l IH]; intros a b; [reflexivity|].
  change (List.last (b :: c :: l) a) with (List.last (c :: l) a).
  rewrite (IH a c). symmetry. apply (IH b c).
Qed.

Lemma borderlessb_sound (sep : string) : borderlessb sep = true -> borderless sep.
Proof.
  unfold borderlessb. rewrite forallb_forall. intros H k Hk.
  apply negb_true_iff, H, in_seq. lia.
Qed.

(** The last piece of a split is what follows the last occurrence of the
    separator, and the whole string when there is none. *)
Lemma split_pieces_last (sep : string) (m : nat) (s : string) :
  sep <> "" -> borderless sep -> String.length s <= m ->
  getitem_last (split_pieces m sep s) =
  Ok (if (rfind sep s <? 0)%Z then s else slice_from (rfind sep s + len sep) s).
Proof.
  intros Hsep Hb. revert s; induction m as [|m IH]; intros s Hm.
  - assert (s = "") as -> by (apply length_zero; lia). cbn.
    now rewrite startswith_nil.
  - cbn [split_pieces]. destruct (find_spec sep s) as [[-> No] | (p & -> & Hp & Min)].
    + cbn. destruct (rfind_spec sep s) as [[-> _] | (r & _ & Hr & _)];
        [reflexivity | now destruct (No r)].
    + rewrite of_nat_ltb_0.
      rewrite getitem_last_cons by apply split_pieces_not_nil.
      unfold len. rewrite <- Nat2Z.inj_add, slice_from_of_nat.
      set (n := String.length sep). set (s1 := drop (p + n) s).
      pose proof (length_after_cut sep s p Hsep Hp) as L. fold n s1 in L.
      pose proof (occurs_at_bound _ _ _ Hp) as B. fold n in B.
      assert (Hk : p + n <= String.length s) by lia.
      rewrite IH by lia.
      destruct (rfind_spec sep s) as [[_ No] | (r & -> & Hr & Max)];
        [now destruct (No p)|].
      rewrite of_nat_ltb_0.
      rewrite <- Nat2Z.inj_add, slice_from_of_nat. f_equal.
      pose proof (Max p Hp) as Hpr.
      destruct (rfind_spec sep s1) as [[-> No1] | (r1 & -> & Hr1 & Max1)].
      * (* no occurrence after the first cut: the first is the last *)
        simpl. destruct (Nat.eq_dec r p) as [->|Hne]; [reflexivity|].
        destruct (Nat.lt_ge_cases r (p + n)) as [Hlt|Hge].
        -- replace r with (p + (r - p)) in Hr by lia.
           pose proof (occurs_at_overlap sep s p (r - p) Hp Hr ltac:(fold n; lia)) as O.
           rewrite Hb in O by (fold n; lia). discriminate.
        -- exfalso. apply (No1 (r - (p + n))).
           apply occurs_at_drop; [exact Hk|].
           now replace (p + n + (r - (p + n))) with r by lia.
      * rewrite of_nat_ltb_0.
        unfold len. rewrite <- Nat2Z.inj_add, slice_from_of_nat.
        unfold s1. rewrite drop_drop.
        f_equal.
        apply occurs_at_drop in Hr1 as Hr1'; [|exact Hk].
        pose proof (Max _ Hr1') as U.
        assert (Hr' : occurs_at sep s1 (r - (p + n))).
        { apply occurs_at_drop; [exact Hk|].
          now replace (p + n + (r - (p + n))) with r by lia. }
        pose proof (Max1 _ Hr') as V. lia.
Qed.

(** *** The last occurrence *)

Lemma rfind_cut (sub s : string) :
  sub <> "" ->
  (rfind sub s = (-1)%Z /\ contains sub s = false) \/
  (exists r, rfind sub s = Z.of_nat r /\
             r + String.length sub <= String.length s /\
             s = take r s ++ sub ++ drop (r + String.length sub) s /\
             contains sub (drop (r + 1) s) = false).
Proof.
  intros Hsub. destruct (rfind_spec sub s) as [[E No] | (r & E & Hr & Max)].
  - left. split; [exact E | now apply contains_false_iff].
  - right. exists r. split; [exact E|].
    pose proof (occurs_at_bound _ _ _ Hr) as B.
    assert (0 < String.length sub) by (destruct sub; [congruence | simpl; lia]).
    split; [exact B|]. split.
    + destruct Hr as [Hle [post Hpost]%startswith_iff].
      rewrite <- drop_drop, Hpost, drop_append_length, <- Hpost.
      symmetry. apply take_drop.
    + apply contains_false_iff. intros j Hj.
      apply occurs_at_drop in Hj; [|lia]. apply Max in Hj. lia.
Qed.

End StringFacts.

(** * [posixpath] *)

Section PosixPath.

Local Open Scope nat_scope.
Local Arguments startswith : simpl never.

Lemma basename_spec (p : string) : is_base_name p (posixpath.basename p).
Proof.
  unfold posixpath.basename, posixpath.sep, is_base_name.
  destruct (rfind_cut "/" p ltac:(discriminate)) as [[-> No] | (r & -> & _ & Cut & No)].
  - change (-1 + 1)%Z with (Z.of_nat 0). rewrite slice_from_of_nat, drop_0.
    split; [exact No|]. exists "". split; [reflexivity | now left].
  - change 1%Z with (Z.of_nat 1). rewrite <- Nat2Z.inj_add, slice_from_of_nat.
    split; [exact No|]. exists (take r p ++ "/"). split.
    + rewrite append_assoc. exact Cut.
    + right. now exists (take r p).
Qed.

Lemma all_dots_append (a b : string) :
  all_dots (a ++ b) = all_dots a && all_dots b.
Proof.
  induction a as [|c a IH]; simpl; [reflexivity|].
  now rewrite IH, andb_assoc.
Qed.

Lemma take_S_drop (f n : nat) (p : string) :
  f < String.length p ->
  exists c, take 1 (drop f p) = String c "" /\
            take (S n) (drop f p) = String c (take n (drop (S f) p)).
Proof.
  revert p; induction f as [|f IH]; intros [|c p] H; simpl in H; try lia.
  - exists c. split; [reflexivity | now rewrite drop_0].
  - apply (IH p). lia.
Qed.

(** The loop over the characters before the last dot: it cuts at the dot
    as soon as it meets a character that is no dot, and leaves the name
    whole when there is none. *)
Lemma skip_leading_dots_spec (n f : nat) (p : string) :
  f + n <= String.length p ->
  posixpath.skip_leading_dots n p (Z.of_nat f) (Z.of_nat (f + n)) =
  if all_dots (take n (drop f p)) then (p, "")
  else (take (f + n) p, drop (f + n) p).
Proof.
  revert f; induction n as [|n IH]; intros f H.
  - reflexivity.
  - cbn [posixpath.skip_leading_dots].
    destruct (take_S_drop f n p ltac:(lia)) as (c & E1 & E2). rewrite E2.
    change 1%Z with (Z.of_nat 1). rewrite <- Nat2Z.inj_add.
    unfold slice. rewrite !norm_index_of_nat.
    replace (f + 1 - f) with 1 by lia. rewrite E1.
    cbn [all_dots]. unfold posixpath.extsep.
    change (String c "" =? ".")%string with (Ascii.eqb c "."%char && true).
    rewrite andb_true_r.
    destruct (Ascii.eqb c "."%char); cbn [negb andb].
    + replace (f + S n) with (f + 1 + n) by lia.
      replace (S f) with (f + 1) by lia. apply IH. lia.
    + now rewrite !slice_from_of_nat, !slice_to_of_nat.
Qed.

Lemma splitext_spec (b : string) :
  contains "/" b = false ->
  is_stem b (fst (posixpath.splitext b)) /\
  b = fst (posixpath.splitext b) ++ snd (posixpath.splitext b).
Proof.
  intros NoSlash. unfold posixpath.splitext, posixpath.sep, posixpath.extsep.
  destruct (rfind_spec "/" b) as [[-> _] | (i & _ & Hi & _)];
    [|exfalso; exact (proj1 (contains_false_iff _ _) NoSlash i Hi)].
  destruct (rfind_cut "." b ltac:(discriminate)) as [[-> No] | (d & -> & Hd & Cut & No)].
  - cbn. rewrite append_nil_r. split; [|reflexivity].
    left. split; [reflexivity|]. exists "", b. now repeat split.
  - replace (-1 <? Z.of_nat d)%Z with true by (symmetry; apply Z.ltb_lt; lia).
    change (-1 + 1)%Z with (Z.of_nat 0). rewrite Z.sub_0_r, Nat2Z.id.
    cbn [String.length] in Hd.
    pose proof (skip_leading_dots_spec d 0 b ltac:(lia)) as L.
    cbn [Nat.add] in L. rewrite L, drop_0.
    destruct (all_dots (take d b)) eqn:A; cbn [fst snd].
    + rewrite append_nil_r. split; [|reflexivity].
      left. split; [reflexivity|]. exists (take d b ++ "."), (drop (d + 1) b).
      split; [rewrite append_assoc; exact Cut|]. split; [|exact No].
      rewrite all_dots_append, A. reflexivity.
    + split; [|symmetry; apply take_drop].
      right. split; [exact A|]. exists (drop (d + 1) b). split; [exact Cut | exact No].
Qed.

End PosixPath.

(** * [get_source_name] *)

Section SourceName.

Import QgsMapLayer.
Local Arguments startswith : simpl never.

Lemma table_sep_borderless : borderless "table=".
Proof. apply borderlessb_sound. reflexivity. Qed.

(** In the GeoPackage branch the function returns, and what it returns is
    the last piece of the split. *)
Lemma get_source_name_gpkg (layer : Layer) :
  contains ".gpkg|" (source layer) = true ->
  get_source_name layer =
  Ok (if rfind "table=" (source layer) <? 0 then source layer
      else slice_from (rfind "table=" (source layer) + len "table=") (source layer)).
Proof.
  intros G. unfold get_source_name. rewrite G. unfold split.
  change ("table=" =? "")%string with false. cbn [bind].
  rewrite split_pieces_last;
    [reflexivity | discriminate | exact table_sep_borderless | apply Nat.le_refl].
Qed.

(** Where ["table="] occurs. For every layer whose source contains
    [".gpkg|"] and at least one occurrence of ["table="], [get_source_name]
    returns the substring of the source that follows the last occurrence of
    ["table="]: the source is [pre ++ "table=" ++ table_name], and no
    occurrence of ["table="] in the source starts further right than this
    one. *)
Theorem get_source_name_gpkg_table (layer : Layer) :
  contains ".gpkg|" (source layer) = true ->
  contains "table=" (source layer) = true ->
  exists pre table_name,
    get_source_name layer = Ok table_name /\
    source layer = pre ++ "table=" ++ table_name /\
    forall pre' post',
      source layer = pre' ++ "table=" ++ post' ->
      (String.length pre' <= String.length pre)%nat.
Proof.
  intros G T. rewrite (get_source_name_gpkg layer G).
  destruct (rfind_spec "table=" (source layer)) as [[_ No] | (r & -> & Hr & Max)].
  - apply contains_true_iff in T as [i Hi]. now destruct (No i).
  - rewrite of_nat_ltb_0.
    unfold len. rewrite <- Nat2Z.inj_add, slice_from_of_nat.
    exists (take r (source layer)), (drop (r + String.length "table=") (source layer)).
    split; [reflexivity|]. destruct Hr as [Hle Hst]. split.
    + apply startswith_iff in Hst as [post Hpost].
      rewrite <- drop_drop, Hpost, drop_append_length, <- Hpost.
      symmetry. apply take_drop.
    + intros pre' post' E. rewrite length_take by exact Hle.
      apply Max, occurs_at_iff. now exists pre', post'.
Qed.

Lemma get_source_name_gpkg_table_witness :
  exists pre table_name,
    get_source_name ToyHost.roads = Ok table_name /\
    source ToyHost.roads = pre ++ "table=" ++ table_name /\
    forall pre' post',
      source ToyHost.roads = pre' ++ "table=" ++ post' ->
      (String.length pre' <= String.length pre)%nat.
Proof. apply (get_source_name_gpkg_table ToyHost.roads); reflexivity. Defined.

(** C1. The docstring promises the table name for a GeoPackage layer, and
    C1 the text that follows ["table="]. On the GeoPackage source
    ["/data/town.gpkg|layername=roads"], which names its table without
    ["table="], the code returns neither: the whole source comes back, and it
    follows no occurrence of ["table="] in the source. *)
Lemma get_source_name_gpkg_layername_only :
  let layer :=
    QgsMapLayer.mk QgsVectorLayer "roads" "/data/town.gpkg|layername=roads" "EPSG:4326" in
  contains ".gpkg|" (source layer) = true /\
  get_source_name layer = Ok "/data/town.gpkg|layername=roads" /\
  ~ (exists pre table_name,
       get_source_name layer = Ok table_name /\
       source layer = pre ++ "table=" ++ table_name).
Proof.
  cbv zeta. split; [reflexivity|]. split; [reflexivity|].
  intros (pre & t & Hg & Hs). vm_compute in Hg. injection Hg as <-.
  apply (f_equal String.length) in Hs. rewrite !length_append in Hs.
  simpl in Hs. lia.
Qed.

(** C10. For every layer whose source contains [".gpkg|"] but no
    occurrence of ["table="], [get_source_name] returns the whole source
    string unchanged. *)
Theorem get_source_name_gpkg_no_table (layer : Layer) :
  contains ".gpkg|" (source layer) = true ->
  contains "table=" (source layer) = false ->
  get_source_name layer = Ok (source layer).
Proof.
  intros G T. unfold get_source_name. rewrite G. unfold split.
  change ("table=" =? "")%string with false. cbn [bind].
  unfold contains in T. apply Z.leb_gt in T.
  destruct (String.length (source layer)); cbn [split_pieces]; [reflexivity|].
  replace (find "table=" (source layer) <? 0) with true
    by (symmetry; apply Z.ltb_lt; lia).
  reflexivity.
Qed.

Lemma get_source_name_gpkg_no_table_witness :
  get_source_name
    (QgsMapLayer.mk QgsVectorLayer "roads" "/data/town.gpkg|layername=roads" "EPSG:4326")
  = Ok "/data/town.gpkg|layername=roads".
Proof.
  apply (get_source_name_gpkg_no_table
           (QgsMapLayer.mk QgsVectorLayer "roads" "/data/town.gpkg|layername=roads"
                           "EPSG:4326")); reflexivity.
Defined.

(** C9. For every layer whose source contains no [".gpkg|"] and starts
    neither with ["/"] nor with ["C:"], [get_source_name] falls back to the
    layer's display name. *)
Theorem get_source_name_fallback (layer : Layer) :
  contains ".gpkg|" (source layer) = false ->
  startswith "/" (source layer) = false ->
  startswith "C:" (source layer) = false ->
  get_source_name layer = Ok (name layer).
Proof.
  intros G S1 S2. unfold get_source_name. now rewrite G, S1, S2.
Qed.

Lemma get_source_name_fallback_witness :
  get_source_name ToyHost.scratch = Ok "scratch".
Proof. apply (get_source_name_fallback ToyHost.scratch); reflexivity. Defined.

(** C7, as amended. [get_source_name] is a function of the layer's source
    string and display name only: two layers with the same source and the
    same name are mapped to the same base name, and the same source alone
    is enough when it contains [".gpkg|"] or starts with ["/"] or ["C:"]. *)
Theorem get_source_name_deterministic (layer1 layer2 : Layer) :
  source layer1 = source layer2 ->
  name layer1 = name layer2 \/
  contains ".gpkg|" (source layer1)
    || startswith "/" (source layer1) || startswith "C:" (source layer1) = true ->
  get_source_name layer1 = get_source_name layer2.
Proof.
  intros Hs H. unfold get_source_name. rewrite <- Hs.
  destruct (contains ".gpkg|" (source layer1)); [reflexivity|].
  destruct (startswith "/" (source layer1) || startswith "C:" (source layer1)) eqn:E;
    [reflexivity|].
  destruct H as [-> | H]; [reflexivity|].
  rewrite orb_false_l in H. unfold Layer in *. congruence.
Qed.

Lemma get_source_name_deterministic_witness :
  get_source_name ToyHost.rivers =
  get_source_name (QgsMapLayer.mk QgsRasterLayer "water" (source ToyHost.rivers) "EPSG:3857").
Proof.
  apply (get_source_name_deterministic ToyHost.rivers
           (QgsMapLayer.mk QgsRasterLayer "water" (source ToyHost.rivers) "EPSG:3857"));
    [reflexivity | right; reflexivity].
Defined.

(** C7 as it is written fails in the fallback branch: two layers with one
    source string and two names get two base names. *)
Lemma get_source_name_same_source_two_names :
  let layer1 := QgsMapLayer.mk QgsVectorLayer "stops" "Point?crs=EPSG:4326" "EPSG:4326" in
  let layer2 := QgsMapLayer.mk QgsVectorLayer "wells" "Point?crs=EPSG:4326" "EPSG:4326" in
  source layer1 = source layer2 /\
  get_source_name layer1 = Ok "stops" /\
  get_source_name layer2 = Ok "wells" /\
  get_source_name layer1 <> get_source_name layer2.
Proof. cbv zeta. repeat split; discriminate. Qed.

(** Where the file test succeeds. For every layer whose source contains no
    [".gpkg|"] and starts with ["/"] or ["C:"], [get_source_name] returns
    the base name of the source, by the rules of POSIX paths, with its
    extension stripped. *)
Theorem get_source_name_file_path (layer : Layer) :
  contains ".gpkg|" (source layer) = false ->
  startswith "/" (source layer) || startswith "C:" (source layer) = true ->
  exists base stem,
    get_source_name layer = Ok stem /\
    is_base_name (source layer) base /\
    is_stem base stem.
Proof.
  intros G P. unfold get_source_name. rewrite G, P.
  exists (posixpath.basename (source layer)),
         (fst (posixpath.splitext (posixpath.basename (source layer)))).
  pose proof (basename_spec (source layer)) as B.
  split; [reflexivity|]. split; [exact B|].
  apply splitext_spec, B.
Qed.

Lemma get_source_name_file_path_witness :
  exists base stem,
    get_source_name ToyHost.rivers = Ok stem /\
    is_base_name (source ToyHost.rivers) base /\
    is_stem base stem.
Proof. apply (get_source_name_file_path ToyHost.rivers); reflexivity. Defined.

(** C2. The docstring promises the file name without its extension for a
    file, and the code tests for a file by a leading ["/"] or ["C:"] only. On
    the file path ["D:/gis/roads.shp"] the test fails and the layer's name
    comes back, which is no part of the path at all, where the base name
    without its extension is ["roads"]. *)
Lemma get_source_name_other_drive :
  let layer := QgsMapLayer.mk QgsVectorLayer "Main roads" "D:/gis/roads.shp" "EPSG:4326" in
  contains ".gpkg|" (source layer) = false /\
  get_source_name layer = Ok "Main roads" /\
  fst (posixpath.splitext (posixpath.basename (source layer))) = "roads" /\
  ~ (exists base stem,
       get_source_name layer = Ok stem /\
       is_base_name (source layer) base /\
       is_stem base stem).
Proof.
  cbv zeta. split; [reflexivity|]. split; [reflexivity|]. split; [reflexivity|].
  intros (base & stem & Hg & (_ & dir & Hs & _) & St).
  vm_compute in Hg. injection Hg as <-.
  assert (O : occurs_at "Main roads" "D:/gis/roads.shp" (String.length dir)).
  { apply occurs_at_iff. cbn [source] in Hs.
    destruct St as [[<- _] | (_ & e & -> & _)].
    - exists dir, "". now rewrite append_nil_r.
    - exists dir, ("." ++ e). split; [exact Hs | reflexivity]. }
  revert O. apply contains_false_iff. reflexivity.
Qed.

End SourceName.

(** * The export loop and [processAlgorithm] *)

Section Processing.

Import QgsMapLayer.
Local Arguments startswith : simpl never.

Context {Host Parameters ProcessingContext : Type}.
Variable api : HostAPI Host Parameters ProcessingContext.

Lemma get_source_name_returns (layer : Layer) :
  exists base, get_source_name layer = Ok base.
Proof.
  destruct (contains ".gpkg|" (source layer)) eqn:G.
  - eexists. now apply get_source_name_gpkg.
  - unfold get_source_name. rewrite G.
    destruct (startswith "/" (source layer) || startswith "C:" (source layer));
      eexists; reflexivity.
Qed.

Lemma contains_suffix (pre sub : string) : contains sub (pre ++ sub) = true.
Proof.
  apply contains_true_iff. exists (String.length pre).
  apply occurs_at_iff. exists pre, "". now rewrite append_nil_r.
Qed.

Lemma report_of_reports (layer : Layer) (output_filename : string) (ret : Z * string) :
  reports (NoError api) ret (report_of (NoError api) layer output_filename ret).
Proof.
  unfold reports, report_of. destruct (Z.eqb_spec (fst ret) (NoError api)) as [E|E].
  - left. split; [exact E | eexists; reflexivity].
  - right. split; [exact E|]. eexists. split; [reflexivity|].
    rewrite <- !append_assoc. apply contains_suffix.
Qed.

Lemma report_of_quiet (layer : Layer) (output_filename : string) (ret : Z * string) :
  is_makedirs (report_of (NoError api) layer output_filename ret) = false /\
  is_writer_call (report_of (NoError api) layer output_filename ret) = false /\
  is_creation_message (report_of (NoError api) layer output_filename ret) = false.
Proof.
  unfold report_of. destruct (fst ret =? NoError api); repeat split.
Qed.

(** One turn of the loop: it returns, and leaves one segment. *)
Lemma export_layer_run (output_folder : string) (filename_option : Z)
  (layer : Layer) (w : World Host) :
  exists h seg,
    export_layer api output_folder filename_option layer w
    = (Ok tt, mkWorld h (trace w ++ seg)) /\
    layer_segment api output_folder filename_option layer seg.
Proof.
  unfold export_layer, bindM, layer_segment.
  assert (exists base,
             derived_base_name filename_option layer base /\
             (if filename_option =? 0 then ret (name layer) else lift (get_source_name layer)) w
             = (Ok base, w)) as (base & Hb & ->).
  { destruct (Z.eqb_spec filename_option 0) as [E|E].
    - exists (name layer). split; [now left | reflexivity].
    - destruct (get_source_name_returns layer) as [base Hbase].
      exists base. split; [now right|]. unfold lift. now rewrite Hbase. }
  unfold writer.
  destruct (writeAsVectorFormat api layer _ "UTF-8" (crs layer) "ESRI Shapefile" (host w))
    as [error h] eqn:W.
  exists h.
  exists [WriteAsVectorFormat layer (posixpath.join output_folder (base ++ ".shp"))
            "UTF-8" (crs layer) "ESRI Shapefile" error;
          report_of (NoError api) layer (posixpath.join output_folder (base ++ ".shp"))
            error].
  split.
  - unfold report_of, pushInfo, pushWarning, emit.
    destruct (fst error =? NoError api); cbn [host trace]; rewrite <- app_assoc;
      cbn [app]; reflexivity.
  - exists base, (host w). split; [exact Hb|]. cbv zeta. now rewrite W.
Qed.

(** The whole loop: it returns, and leaves one segment per layer, in the
    order of the list. *)
Lemma for_each_export_run (output_folder : string) (filename_option : Z)
  (layers : list Layer) (w : World Host) :
  exists h segs,
    for_each layers (export_layer api output_folder filename_option) w
    = (Ok tt, mkWorld h (trace w ++ concat segs)) /\
    Forall2 (layer_segment api output_folder filename_option) layers segs.
Proof.
  revert w; induction layers as [|layer layers IH]; intros w.
  - exists (host w), []. split; [|constructor].
    cbn. rewrite app_nil_r. now destruct w.
  - destruct (export_layer_run output_folder filename_option layer w)
      as (h1 & seg & E1 & S1).
    destruct (IH (mkWorld h1 (trace w ++ seg))) as (h2 & segs & E2 & S2).
    exists h2, (seg :: segs). split; [|now constructor].
    cbn [for_each]. unfold bindM at 1. rewrite E1, E2.
    cbn [trace concat]. now rewrite <- app_assoc.
Qed.

(** *** Reading the segments *)

Lemma written_layers_app (tr1 tr2 : list Event) :
  written_layers (tr1 ++ tr2) = (written_layers tr1 ++ written_layers tr2)%list.
Proof.
  induction tr1 as [|e tr1 IH]; [reflexivity|].
  destruct e; cbn [written_layers app]; now rewrite ?IH.
Qed.

Lemma segments_written_layers (output_folder : string) (filename_option : Z)
  (layers : list Layer) (segs : list (list Event)) :
  Forall2 (layer_segment api output_folder filename_option) layers segs ->
  written_layers (concat segs) = layers.
Proof.
  induction 1 as [|layer seg layers segs (base & h & _ & ->) _ IH]; [reflexivity|].
  cbn [concat]. rewrite written_layers_app, IH.
  cbn [written_layers app]. unfold report_of.
  now destruct (fst _ =? NoError api).
Qed.

Lemma segments_writer_calls (output_folder : string) (filename_option : Z)
  (layers : list Layer) (segs : list (list Event)) :
  Forall2 (layer_segment api output_folder filename_option) layers segs ->
  Forall2
    (fun layer call =>
       exists base ret,
         derived_base_name filename_option layer base /\
         call = WriteAsVectorFormat layer (posixpath.join output_folder (base ++ ".shp"))
                  "UTF-8" (crs layer) "ESRI Shapefile" ret)
    layers (writer_calls (concat segs)).
Proof.
  induction 1 as [|layer seg layers segs (base & h & Hb & ->) _ IH]; [constructor|].
  cbn [concat]. unfold writer_calls in *. rewrite filter_app.
  cbn [filter is_writer_call].
  destruct (report_of_quiet layer
              (posixpath.join output_folder (base ++ ".shp"))
              (fst (writeAsVectorFormat api layer
                      (posixpath.join output_folder (base ++ ".shp"))
                      "UTF-8" (crs layer) "ESRI Shapefile" h))) as (_ & -> & _).
  cbn [app]. constructor; [|exact IH]. now eexists base, _.
Qed.

Lemma segments_quiet (output_folder : string) (filename_option : Z)
  (layers : list Layer) (segs : list (list Event)) :
  Forall2 (layer_segment api output_folder filename_option) layers segs ->
  existsb is_makedirs (concat segs) = false /\
  existsb is_creation_message (concat segs) = false.
Proof.
  induction 1 as [|layer seg layers segs (base & h & _ & ->) _ [IH1 IH2]];
    [split; reflexivity|].
  cbn [concat]. rewrite !existsb_app, IH1, IH2.
  cbn [existsb is_makedirs is_creation_message].
  destruct (report_of_quiet layer
              (posixpath.join output_folder (base ++ ".shp"))
              (fst (writeAsVectorFormat api layer
                      (posixpath.join output_folder (base ++ ".shp"))
                      "UTF-8" (crs layer) "ESRI Shapefile" h))) as (-> & _ & ->).
  split; reflexivity.
Qed.

(** *** The loop, host by host *)

(** One turn of the loop, with the host it leaves. *)
Lemma export_layer_exact (output_folder : string) (filename_option : Z)
  (layer : Layer) (w : World Host) :
  exists base,
    derived_base_name filename_option layer base /\
    let output_filename := posixpath.join output_folder (base ++ ".shp") in
    let r := writeAsVectorFormat api layer output_filename "UTF-8" (crs layer)
               "ESRI Shapefile" (host w) in
    export_layer api output_folder filename_option layer w
    = (Ok tt,
       mkWorld (snd r)
         (trace w ++ [WriteAsVectorFormat layer output_filename "UTF-8" (crs layer)
                        "ESRI Shapefile" (fst r);
                      report_of (NoError api) layer output_filename (fst r)])).
Proof.
  unfold export_layer, bindM.
  assert (exists base,
             derived_base_name filename_option layer base /\
             (if filename_option =? 0 then ret (name layer) else lift (get_source_name layer)) w
             = (Ok base, w)) as (base & Hb & ->).
  { destruct (Z.eqb_spec filename_option 0) as [E|E].
    - exists (name layer). split; [now left | reflexivity].
    - destruct (get_source_name_returns layer) as [base Hbase].
      exists base. split; [now right|]. unfold lift. now rewrite Hbase. }
  exists base. split; [exact Hb|]. cbv zeta. unfold writer.
  destruct (writeAsVectorFormat api layer _ "UTF-8" (crs layer) "ESRI Shapefile" (host w))
    as [error h].
  unfold report_of, pushInfo, pushWarning, emit. cbn [fst snd].
  destruct (fst error =? NoError api); cbn [host trace]; rewrite <- app_assoc;
    cbn [app]; reflexivity.
Qed.

(** The whole loop: it returns, leaves one segment per layer, and its
    writer calls run from the host it starts in to the host it ends in. *)
Lemma for_each_export_chain (output_folder : string) (filename_option : Z)
  (layers : list Layer) (w : World Host) :
  exists h segs,
    for_each layers (export_layer api output_folder filename_option) w
    = (Ok tt, mkWorld h (trace w ++ concat segs)) /\
    Forall2 (layer_segment api output_folder filename_option) layers segs /\
    writer_chain api output_folder filename_option (host w) layers
      (writer_calls (concat segs)) h.
Proof.
  revert w; induction layers as [|layer layers IH]; intros w.
  - exists (host w), []. split; [|split; constructor].
    cbn. rewrite app_nil_r. now destruct w.
  - destruct (export_layer_exact output_folder filename_option layer w) as (base & Hb & E1).
    cbv zeta in E1.
    set (path := posixpath.join output_folder (base ++ ".shp")) in *.
    set (r := writeAsVectorFormat api layer path "UTF-8" (crs layer) "ESRI Shapefile"
                (host w)) in *.
    set (seg := [WriteAsVectorFormat layer path "UTF-8" (crs layer) "ESRI Shapefile" (fst r);
                 report_of (NoError api) layer path (fst r)]) in *.
    destruct (IH (mkWorld (snd r) (trace w ++ seg))) as (h2 & segs & E2 & S2 & C2).
    exists h2, (seg :: segs). split; [|split].
    + cbn [for_each]. unfold bindM at 1. rewrite E1, E2.
      cbn [trace concat]. now rewrite <- app_assoc.
    + constructor; [|exact S2]. exists base, (host w). split; [exact Hb | reflexivity].
    + cbn [concat]. unfold writer_calls in *. rewrite filter_app. unfold seg.
      cbn [filter is_writer_call].
      destruct (report_of_quiet layer path (fst r)) as (_ & -> & _).
      cbn [app]. apply writer_chain_cons; [exact Hb | exact C2].
Qed.

Lemma writer_chain_nil_inv (output_folder : string) (filename_option : Z)
  (h h' : Host) (calls : list Event) :
  writer_chain api output_folder filename_option h [] calls h' -> calls = [] /\ h' = h.
Proof. inversion 1. now split. Qed.

(** What the writer keeps, a chain of writer calls keeps. *)
Lemma writer_chain_keeps (P : Host -> Prop) (output_folder : string)
  (filename_option : Z) (h h' : Host) (layers : list Layer) (calls : list Event) :
  (forall layer fileName fileEncoding destCRS driverName h0,
      P h0 -> P (snd (writeAsVectorFormat api layer fileName fileEncoding destCRS
                        driverName h0))) ->
  writer_chain api output_folder filename_option h layers calls h' ->
  P h -> P h'.
Proof. intros Keep. induction 1; intros Ph; [exact Ph | apply IHwriter_chain, Keep, Ph]. Qed.

(** The calls of a chain, read one by one. *)
Lemma writer_chain_calls (output_folder : string) (filename_option : Z)
  (h h' : Host) (layers : list Layer) (calls : list Event) :
  writer_chain api output_folder filename_option h layers calls h' ->
  written_layers calls = layers /\
  Forall2
    (fun layer call =>
       exists base ret,
         derived_base_name filename_option layer base /\
         call = WriteAsVectorFormat layer (posixpath.join output_folder (base ++ ".shp"))
                  "UTF-8" (crs layer) "ESRI Shapefile" ret)
    layers calls.
Proof.
  induction 1 as [|h layer layers base calls h' Hb _ [IH1 IH2]]; [split; constructor|].
  split.
  - cbn [written_layers]. now rewrite IH1.
  - constructor; [|exact IH2]. now eexists base, _.
Qed.

Lemma written_layers_writer_calls (tr : list Event) :
  written_layers (writer_calls tr) = written_layers tr.
Proof.
  induction tr as [|e tr IH]; [reflexivity|].
  destruct e; cbn [writer_calls filter is_writer_call written_layers];
    fold (writer_calls tr); now rewrite ?IH.
Qed.

(** *** The script as a whole *)

Lemma folder_step_run (output_folder : string) (w : World Host) :
  (if negb (os_path_exists api output_folder (host w))
   then makedirs api output_folder;;
        pushInfo ("Output folder created: " ++ output_folder)
   else ret tt) w
  = (fst (folder_step api output_folder (host w)),
     mkWorld (host_after_folder api output_folder (host w))
       (trace w ++ folder_events api output_folder (host w))).
Proof.
  unfold host_after_folder, folder_step, folder_events, bindM, makedirs, pushInfo, emit, ret.
  destruct (os_path_exists api output_folder (host w)); cbn [negb fst snd].
  - rewrite app_nil_r. now destruct w.
  - destruct (os_makedirs api output_folder (host w)) as [[[]|e] h1];
      cbn [fst snd host trace]; [now rewrite <- app_assoc | reflexivity].
Qed.

Lemma processAlgorithm_unfold (parameters : Parameters) (context : ProcessingContext)
  (w : World Host) :
  let output_folder := output_folder_of api parameters context in
  let filename_option := filename_option_of api parameters context in
  let w1 := mkWorld (host_after_folder api output_folder (host w))
              (trace w ++ folder_events api output_folder (host w)) in
  processAlgorithm api parameters context w
  = match fst (folder_step api output_folder (host w)) with
    | Raise e => (Raise e, w1)
    | Ok _ =>
        match selected_vector_layers api (host w1) with
        | [] => (pushWarning "No vector layers selected for export.";; ret []) w1
        | layers =>
            (for_each layers (export_layer api output_folder filename_option);; ret []) w1
        end
    end.
Proof.
  cbv zeta.
  unfold processAlgorithm, output_folder_of, filename_option_of, selected_vector_layers.
  set (output_folder := parameterAsString api parameters OUTPUT_FOLDER context).
  set (filename_option := parameterAsEnum api parameters FILENAME_BASE context).
  unfold bindM at 1. unfold path_exists at 1.
  unfold bindM at 1. rewrite folder_step_run.
  destruct (fst (folder_step api output_folder (host w))) as [[]|e]; [|reflexivity].
  unfold bindM at 1. unfold layerTreeView_selectedLayers at 1. cbn [host].
  now destruct (filter _ (selectedLayers api _)).
Qed.

Lemma processAlgorithm_run (parameters : Parameters) (context : ProcessingContext)
  (w : World Host) :
  let output_folder := output_folder_of api parameters context in
  let filename_option := filename_option_of api parameters context in
  let h1 := host_after_folder api output_folder (host w) in
  match fst (folder_step api output_folder (host w)) with
  | Raise e =>
      processAlgorithm api parameters context w
      = (Raise e, mkWorld h1 (trace w ++ folder_events api output_folder (host w)))
  | Ok _ =>
      exists h tr,
        processAlgorithm api parameters context w
        = (Ok [], mkWorld h (trace w ++ folder_events api output_folder (host w) ++ tr)) /\
        writer_chain api output_folder filename_option h1
          (selected_vector_layers api h1) (writer_calls tr) h /\
        match selected_vector_layers api h1 with
        | [] => tr = [PushWarning "No vector layers selected for export."]
        | layers =>
            exists segs,
              tr = concat segs /\
              Forall2 (layer_segment api output_folder filename_option) layers segs
        end
  end.
Proof.
  cbv zeta. rewrite processAlgorithm_unfold. cbv zeta. cbn [host].
  set (output_folder := output_folder_of api parameters context).
  set (filename_option := filename_option_of api parameters context).
  set (h1 := host_after_folder api output_folder (host w)).
  set (t1 := (trace w ++ folder_events api output_folder (host w))%list).
  destruct (fst (folder_step api output_folder (host w))) as [[]|e]; [|reflexivity].
  destruct (selected_vector_layers api h1) as [|layer layers] eqn:Sel.
  - exists h1, [PushWarning "No vector layers selected for export."].
    split; [|split; [constructor | reflexivity]].
    unfold bindM, pushWarning, emit, ret, t1. cbn [host trace].
    now rewrite <- app_assoc.
  - destruct (for_each_export_chain output_folder filename_option (layer :: layers)
                (mkWorld h1 t1)) as (h & segs & E & S & C).
    exists h, (concat segs). split; [|split; [exact C | now exists segs]].
    unfold bindM at 1. rewrite E. unfold ret, t1. cbn [host trace].
    now rewrite <- app_assoc.
Qed.

Lemma folder_events_quiet (output_folder : string) (h : Host) :
  writer_calls (folder_events api output_folder h) = [] /\
  written_layers (folder_events api output_folder h) = [].
Proof.
  unfold folder_events. destruct (os_path_exists api output_folder h); [now split|].
  destruct (fst (os_makedirs api output_folder h)); now split.
Qed.

(** C3, as amended. When the folder step completes (the output folder
    exists, or [os.makedirs] returns), [processAlgorithm] returns and, for
    every selected vector layer, makes exactly one call to the writer: the
    writer calls of the run are a chain over the selected vector layers, in
    their order, each in the host the call before it left and with what the
    writer returned there; the call for a layer has as output path the output
    folder joined with the base name plus [".shp"], the base name being the
    layer's display name when the filename basis is [0] and the result of
    [get_source_name] otherwise. *)
Theorem processAlgorithm_writer_calls (parameters : Parameters)
  (context : ProcessingContext) (w : World Host) :
  let output_folder := output_folder_of api parameters context in
  let h1 := host_after_folder api output_folder (host w) in
  fst (folder_step api output_folder (host w)) = Ok tt ->
  exists h tr,
    processAlgorithm api parameters context w = (Ok [], mkWorld h (trace w ++ tr)) /\
    writer_chain api output_folder (filename_option_of api parameters context) h1
      (selected_vector_layers api h1) (writer_calls tr) h /\
    Forall2
      (fun layer call =>
         exists base ret,
           derived_base_name (filename_option_of api parameters context) layer base /\
           call = WriteAsVectorFormat layer (posixpath.join output_folder (base ++ ".shp"))
                    "UTF-8" (crs layer) "ESRI Shapefile" ret)
      (selected_vector_layers api h1) (writer_calls tr).
Proof.
  cbv zeta. intros F.
  pose proof (processAlgorithm_run parameters context w) as R. cbv zeta in R.
  rewrite F in R. destruct R as (h & tr & E & C & _).
  eexists h, _. split; [exact E|].
  assert (Q : writer_calls
                (folder_events api (output_folder_of api parameters context) (host w) ++ tr)
              = writer_calls tr).
  { unfold writer_calls. rewrite filter_app.
    destruct (folder_events_quiet (output_folder_of api parameters context) (host w))
      as [Q _].
    unfold writer_calls in Q. now rewrite Q. }
  rewrite Q. split; [exact C|]. exact (proj2 (writer_chain_calls _ _ _ _ _ _ C)).
Qed.

(** C4, as amended. Only vector layers are exported. In every run, each
    layer handed to the writer is a vector layer and no selected layer of
    another class is handed to it; when the folder step completes, the
    layers handed to the writer are exactly the selected layers of the host
    that are vector layers, in the order of the selection. *)
Theorem processAlgorithm_exports_vector_layers (parameters : Parameters)
  (context : ProcessingContext) (w : World Host) :
  let output_folder := output_folder_of api parameters context in
  let selection := selectedLayers api (host_after_folder api output_folder (host w)) in
  exists r h tr,
    processAlgorithm api parameters context w = (r, mkWorld h (trace w ++ tr)) /\
    Forall (fun layer => isinstance layer QgsVectorLayer = true) (written_layers tr) /\
    (forall layer,
        In layer selection -> isinstance layer QgsVectorLayer = false ->
        ~ In layer (written_layers tr)) /\
    (fst (folder_step api output_folder (host w)) = Ok tt ->
     r = Ok [] /\
     written_layers tr = filter (fun layer => isinstance layer QgsVectorLayer) selection).
Proof.
  cbv zeta.
  pose proof (processAlgorithm_run parameters context w) as R. cbv zeta in R.
  destruct (folder_events_quiet (output_folder_of api parameters context) (host w))
    as [_ Q].
  destruct (fst (folder_step api (output_folder_of api parameters context) (host w)))
    as [[]|e].
  - destruct R as (h & tr & E & C & _).
    eexists (Ok []), h, _. split; [exact E|].
    assert (W : written_layers
                  (folder_events api (output_folder_of api parameters context) (host w) ++ tr)
                = selected_vector_layers api
                    (host_after_folder api (output_folder_of api parameters context)
                       (host w))).
    { rewrite written_layers_app, Q. cbn [app].
      rewrite <- written_layers_writer_calls.
      exact (proj1 (writer_chain_calls _ _ _ _ _ _ C)). }
    rewrite W. unfold selected_vector_layers.
    split; [|split; [|now split]].
    + apply Forall_forall. intros layer I. now apply filter_In in I.
    + intros layer _ NotVector I. apply filter_In in I as [_ Vector]. congruence.
  - eexists (Raise e), _, _. split; [exact R|]. rewrite Q.
    split; [constructor|]. split; [intros layer _ _ []|discriminate].
Qed.

(** C5. For every layer of the export loop, an info message is pushed when
    the writer returns the status [NoError] and a warning that holds the
    error message otherwise; either way the loop goes on to the next layer,
    and it ends without an exception. *)
Theorem export_loop_reports (output_folder : string) (filename_option : Z)
  (layers : list Layer) (w : World Host) :
  exists h segs,
    for_each layers (export_layer api output_folder filename_option) w
    = (Ok tt, mkWorld h (trace w ++ concat segs)) /\
    Forall2
      (fun layer seg =>
         exists fileName ret report,
           seg = [WriteAsVectorFormat layer fileName "UTF-8" (crs layer) "ESRI Shapefile" ret;
                  report] /\
           (exists hi, ret = fst (writeAsVectorFormat api layer fileName "UTF-8"
                                    (crs layer) "ESRI Shapefile" hi)) /\
           reports (NoError api) ret report)
      layers segs.
Proof.
  destruct (for_each_export_run output_folder filename_option layers w)
    as (h & segs & E & S).
  exists h, segs. split; [exact E|].
  revert S. apply Forall2_impl. intros layer seg (base & hi & _ & ->).
  eexists _, _, _. split; [reflexivity|]. split; [now exists hi|].
  apply report_of_reports.
Qed.

(** C6, as amended. If the output folder does not exist,
    [processAlgorithm] calls [os.makedirs] on it before anything else; when
    that call returns, the info message is pushed next, and the selection
    is read and every layer exported in the host that the call left; when it
    raises, the exception leaves [processAlgorithm] and nothing more
    happens. If the folder exists, nothing is created, no creation message is
    pushed and the folder step leaves the host as it was: the export starts
    in the host as it stood, and the run is the same whatever [os.makedirs]
    would do. *)
Theorem processAlgorithm_output_folder (parameters : Parameters)
  (context : ProcessingContext) (w : World Host) :
  let output_folder := output_folder_of api parameters context in
  let filename_option := filename_option_of api parameters context in
  exists r h tr,
    processAlgorithm api parameters context w = (r, mkWorld h (trace w ++ tr)) /\
    (os_path_exists api output_folder (host w) = false ->
     exists rest,
       tr = Makedirs output_folder :: rest /\
       existsb is_makedirs rest = false /\
       match fst (os_makedirs api output_folder (host w)) with
       | Ok _ =>
           let h1 := snd (os_makedirs api output_folder (host w)) in
           r = Ok [] /\
           exists rest',
             rest = PushInfo ("Output folder created: " ++ output_folder) :: rest' /\
             writer_chain api output_folder filename_option h1
               (selected_vector_layers api h1) (writer_calls rest') h
       | Raise e =>
           r = Raise e /\ rest = [] /\ h = snd (os_makedirs api output_folder (host w))
       end) /\
    (os_path_exists api output_folder (host w) = true ->
     r = Ok [] /\
     existsb is_makedirs tr = false /\
     existsb is_creation_message tr = false /\
     writer_chain api output_folder filename_option (host w)
       (selected_vector_layers api (host w)) (writer_calls tr) h /\
     forall f,
       processAlgorithm (with_makedirs api f) parameters context w
       = processAlgorithm api parameters context w).
Proof.
  cbv zeta.
  pose proof (processAlgorithm_run parameters context w) as R. cbv zeta in R.
  unfold host_after_folder, folder_step, folder_events in R.
  destruct (os_path_exists api (output_folder_of api parameters context) (host w)) eqn:F.
  - cbn [fst snd app] in R. destruct R as (h & tr & E & C & M).
    exists (Ok []), h, tr. split; [exact E|]. split; [discriminate|]. intros _.
    assert (Q : existsb is_makedirs tr = false /\ existsb is_creation_message tr = false).
    { destruct (selected_vector_layers api _) as [|layer layers].
      - subst tr. now split.
      - destruct M as (segs & -> & S). exact (segments_quiet _ _ _ _ S). }
    destruct Q as [Q1 Q2].
    split; [reflexivity|]. split; [exact Q1|]. split; [exact Q2|]. split; [exact C|].
    intros f. unfold processAlgorithm, bindM, path_exists.
    cbn [with_makedirs os_path_exists parameterAsString parameterAsEnum].
    unfold output_folder_of in F. rewrite F. reflexivity.
  - destruct (os_makedirs api (output_folder_of api parameters context) (host w))
      as [[[]|e] h1]; cbn [fst snd] in *.
    + destruct R as (h & tr & E & C & M).
      eexists (Ok []), h, _. split; [exact E|]. split; [|discriminate]. intros _.
      cbn [app]. eexists. split; [reflexivity|].
      assert (Q : existsb is_makedirs tr = false).
      { destruct (selected_vector_layers api _) as [|layer layers].
        - now subst tr.
        - destruct M as (segs & -> & S). exact (proj1 (segments_quiet _ _ _ _ S)). }
      split; [exact Q|]. split; [reflexivity|]. exists tr. split; [reflexivity | exact C].
    + eexists (Raise e), h1, _. split; [exact R|]. split; [|discriminate]. intros _.
      exists []. repeat split.
Qed.

(** C8, as amended. If the folder step completes and the selection holds no
    vector layer, [processAlgorithm] pushes a warning and returns an empty
    dict without a single writer call; by then the output folder has been
    created if it was missing. *)
Theorem processAlgorithm_no_vector_layer (parameters : Parameters)
  (context : ProcessingContext) (w : World Host) :
  let output_folder := output_folder_of api parameters context in
  let events :=
    (folder_events api output_folder (host w)
     ++ [PushWarning "No vector layers selected for export."])%list in
  fst (folder_step api output_folder (host w)) = Ok tt ->
  selected_vector_layers api (host_after_folder api output_folder (host w)) = [] ->
  processAlgorithm api parameters context w
  = (Ok [], mkWorld (host_after_folder api output_folder (host w)) (trace w ++ events)) /\
  writer_calls events = [] /\
  (os_path_exists api output_folder (host w) = false ->
   host_after_folder api output_folder (host w)
   = snd (os_makedirs api output_folder (host w)) /\
   events = [Makedirs output_folder;
             PushInfo ("Output folder created: " ++ output_folder);
             PushWarning "No vector layers selected for export."]).
Proof.
  cbv zeta. intros F Sel.
  pose proof (processAlgorithm_run parameters context w) as R. cbv zeta in R.
  rewrite F, Sel in R. destruct R as (h & tr & E & C & ->).
  apply writer_chain_nil_inv in C as [_ ->].
  split; [exact E|]. split.
  - unfold writer_calls. rewrite filter_app.
    destruct (folder_events_quiet (output_folder_of api parameters context) (host w))
      as [Q _].
    unfold writer_calls in Q. now rewrite Q.
  - intros X. unfold host_after_folder, folder_step, folder_events in *.
    rewrite X in *. split; [reflexivity|]. now rewrite F.
Qed.

End Processing.

(** * The script on the small host *)

Section Runs.

Import ToyHost.

(** A run with the folder missing and a mixed selection: the raster layer
    is passed over, the layer without a reference system gets a warning,
    and the loop goes on after it. *)
Example run_mixed_selection :
  processAlgorithm ToyHost.api ("/out", 1) tt (start [] mixed)
  = (Ok [],
     mkWorld (ToyHost.mk ["/out/scratch.shp"; "/out/roads.shp"; "/out"] mixed)
       [Makedirs "/out";
        PushInfo "Output folder created: /out";
        WriteAsVectorFormat roads "/out/roads.shp" "UTF-8" "EPSG:4326" "ESRI Shapefile"
          (0, "");
        PushInfo "✅ Layer roads exported as /out/roads.shp";
        WriteAsVectorFormat rivers "/out/rivers.v2.shp" "UTF-8" "" "ESRI Shapefile"
          (6, "no reference system");
        PushWarning "❌ Error exporting rivers: no reference system";
        WriteAsVectorFormat scratch "/out/scratch.shp" "UTF-8" "EPSG:4326" "ESRI Shapefile"
          (0, "");
        PushInfo "✅ Layer scratch exported as /out/scratch.shp"]).
Proof. reflexivity. Qed.

(** A run with an output folder that cannot be made: [os.path.exists] says
    no, [os.makedirs] raises, and the exception leaves [processAlgorithm]
    before the selection is read. *)
Example run_makedirs_raises :
  processAlgorithm ToyHost.api ("/dev/null/out", 1) tt (start [] mixed)
  = (Raise OSError, mkWorld (ToyHost.mk [] mixed) [Makedirs "/dev/null/out"]).
Proof. reflexivity. Qed.

Lemma processAlgorithm_writer_calls_witness :
  exists h tr,
    processAlgorithm ToyHost.api ("/out", 1) tt (start [] mixed) = (Ok [], mkWorld h tr) /\
    writer_chain ToyHost.api "/out" 1 (ToyHost.mk ["/out"] mixed) [roads; rivers; scratch]
      (writer_calls tr) h.
Proof.
  destruct (processAlgorithm_writer_calls ToyHost.api ("/out", 1) tt (start [] mixed)
              eq_refl) as (h & tr & E & C & _).
  exists h, tr. split; [exact E | exact C].
Defined.

(** C3 as it is written fails where [os.makedirs] raises: a vector layer is
    selected and the writer is not called once. *)
Lemma processAlgorithm_raises_before_writer :
  let w := start [] [roads] in
  selected_vector_layers ToyHost.api (host w) = [roads] /\
  processAlgorithm ToyHost.api ("/dev/null/out", 0) tt w
  = (Raise OSError, mkWorld (host w) [Makedirs "/dev/null/out"]) /\
  writer_calls (trace (snd (processAlgorithm ToyHost.api ("/dev/null/out", 0) tt w))) = [].
Proof. cbv zeta. repeat split. Qed.

Lemma processAlgorithm_exports_vector_layers_witness :
  written_layers (trace (snd (processAlgorithm ToyHost.api ("/out", 1) tt (start [] mixed))))
  = [roads; rivers; scratch].
Proof.
  destruct (processAlgorithm_exports_vector_layers ToyHost.api ("/out", 1) tt
              (start [] mixed)) as (r & h & tr & E & _ & _ & K).
  destruct (K eq_refl) as [_ W]. rewrite E. exact W.
Defined.

(** C4 as it is written fails where [os.makedirs] raises: the selection
    holds a vector layer and no layer reaches the writer. *)
Lemma processAlgorithm_raises_before_loop :
  let w := start [] [roads; relief] in
  filter (fun layer => isinstance layer QgsVectorLayer) (selectedLayers ToyHost.api (host w))
  = [roads] /\
  fst (processAlgorithm ToyHost.api ("/dev/null/out", 1) tt w) = Raise OSError /\
  written_layers (trace (snd (processAlgorithm ToyHost.api ("/dev/null/out", 1) tt w))) = [].
Proof. cbv zeta. repeat split. Qed.

Lemma processAlgorithm_no_vector_layer_witness :
  processAlgorithm ToyHost.api ("/out", 0) tt (start [] [relief])
  = (Ok [],
     mkWorld (ToyHost.mk ["/out"] [relief])
       [Makedirs "/out";
        PushInfo "Output folder created: /out";
        PushWarning "No vector layers selected for export."]).
Proof.
  apply (processAlgorithm_no_vector_layer ToyHost.api ("/out", 0) tt (start [] [relief]));
    reflexivity.
Defined.

(** C8 as it is written fails where [os.makedirs] raises: no vector layer
    is selected, and yet no warning is pushed and no dict returned. *)
Lemma processAlgorithm_raises_before_warning :
  let w := start [] [relief] in
  selected_vector_layers ToyHost.api (host w) = [] /\
  processAlgorithm ToyHost.api ("/dev/null/out", 0) tt w
  = (Raise OSError, mkWorld (host w) [Makedirs "/dev/null/out"]).
Proof. cbv zeta. split; reflexivity. Qed.

Lemma processAlgorithm_output_folder_witness :
  (exists rest,
     trace (snd (processAlgorithm ToyHost.api ("/out", 1) tt (start [] mixed)))
     = Makedirs "/out" :: PushInfo "Output folder created: /out" :: rest) /\
  existsb is_makedirs
    (trace (snd (processAlgorithm ToyHost.api ("/out", 1) tt (start ["/out"] mixed))))
  = false.
Proof.
  split.
  - destruct (processAlgorithm_output_folder ToyHost.api ("/out", 1) tt (start [] mixed))
      as (r & h & tr & E & Missing & _).
    destruct (Missing eq_refl) as (rest & -> & _ & _ & rest' & -> & _).
    rewrite E. now exists rest'.
  - destruct (processAlgorithm_output_folder ToyHost.api ("/out", 1) tt
                (start ["/out"] mixed))
      as (r & h & tr & E & _ & Present).
    destruct (Present eq_refl) as (_ & Quiet & _).
    rewrite E. exact Quiet.
Defined.

(** C6 as it is written fails where [os.makedirs] raises: the folder is
    missing, and it is neither created nor announced. *)
Lemma processAlgorithm_raises_without_folder :
  let w := start [] mixed in
  let w' := snd (processAlgorithm ToyHost.api ("/dev/null/out", 1) tt w) in
  os_path_exists ToyHost.api "/dev/null/out" (host w) = false /\
  fst (processAlgorithm ToyHost.api ("/dev/null/out", 1) tt w) = Raise OSError /\
  os_path_exists ToyHost.api "/dev/null/out" (host w') = false /\
  trace w' = [Makedirs "/dev/null/out"].
Proof. cbv zeta. repeat split. Qed.

End Runs.

(** * More on occurrences and paths *)

Section LastOccurrence.

Local Open Scope nat_scope.
Local Arguments startswith : simpl never.

(** The index [rfind] returns is the only one that bounds every occurrence
    and is an occurrence itself. *)
Lemma rfind_unique (sub s : string) (i : nat) :
  occurs_at sub s i -> (forall j, occurs_at sub s j -> j <= i) ->
  rfind sub s = Z.of_nat i.
Proof.
  intros Hi Max. destruct (rfind_spec sub s) as [[_ No] | (r & -> & Hr & MaxR)].
  - now destruct (No i).
  - f_equal. apply Nat.le_antisymm; [apply Max, Hr | apply MaxR, Hi].
Qed.

Lemma single_char_borderless (c : ascii) : borderless (String c "").
Proof. intros k Hk. simpl in Hk. lia. Qed.

(** After an occurrence of a borderless text that is followed by none, no
    occurrence starts. *)
Lemma occurs_at_last (sub pre post : string) (j : nat) :
  sub <> "" -> borderless sub -> contains sub post = false ->
  occurs_at sub (pre ++ sub ++ post) j -> j <= String.length pre.
Proof.
  intros Hsub Hb No Hj.
  destruct (Nat.le_gt_cases j (String.length pre)) as [L|G]; [exact L|exfalso].
  set (s := pre ++ sub ++ post) in *.
  assert (Hp : occurs_at sub s (String.length pre))
    by (apply occurs_at_iff; now exists pre, post).
  destruct (Nat.lt_ge_cases j (String.length pre + String.length sub)) as [Lt|Ge].
  - replace j with (String.length pre + (j - String.length pre)) in Hj by lia.
    pose proof (occurs_at_overlap sub s _ _ Hp Hj ltac:(lia)) as O.
    rewrite Hb in O by lia. discriminate.
  - apply (proj1 (contains_false_iff sub post) No
             (j - (String.length pre + String.length sub))).
    assert (E : post = drop (String.length pre + String.length sub) s).
    { unfold s. now rewrite <- drop_drop, !drop_append_length. }
    rewrite E. apply occurs_at_drop.
    + unfold s. rewrite !length_append. lia.
    + now replace (String.length pre + String.length sub
                   + (j - (String.length pre + String.length sub))) with j by lia.
Qed.

Lemma rfind_last (sub pre post : string) :
  sub <> "" -> borderless sub -> contains sub post = false ->
  rfind sub (pre ++ sub ++ post) = Z.of_nat (String.length pre).
Proof.
  intros Hsub Hb No. apply rfind_unique.
  - apply occurs_at_iff. now exists pre, post.
  - intros j. now apply occurs_at_last.
Qed.

Lemma rfind_none (sub s : string) : contains sub s = false -> rfind sub s = (-1)%Z.
Proof.
  intros No. destruct (rfind_spec sub s) as [[E _] | (r & _ & Hr & _)]; [exact E|].
  now destruct (proj1 (contains_false_iff sub s) No r).
Qed.

Lemma drop_past (pre sub post : string) :
  drop (String.length pre + String.length sub) (pre ++ sub ++ post) = post.
Proof. now rewrite <- drop_drop, !drop_append_length. Qed.

(** A text that does not occur in a string does not occur in what opens
    it. *)
Lemma contains_false_prefix (sub a b : string) :
  contains sub (a ++ b) = false -> contains sub a = false.
Proof.
  rewrite !contains_false_iff. intros No i [Hi [r Hr]%startswith_iff].
  apply (No i). split.
  - rewrite length_append. lia.
  - rewrite drop_append_lt by exact Hi. rewrite Hr, append_assoc.
    apply startswith_append.
Qed.

(** One character that stands neither in [a] nor in [b] does not stand in
    [a ++ b]. *)
Lemma contains_char_append (c : ascii) (a b : string) :
  contains (String c "") a = false -> contains (String c "") b = false ->
  contains (String c "") (a ++ b) = false.
Proof.
  rewrite !contains_false_iff. intros Na Nb i [Hi H].
  rewrite length_append in Hi.
  destruct (Nat.lt_ge_cases i (String.length a)) as [Lt|Ge].
  - apply (Na i). split; [lia|].
    rewrite drop_append_lt in H by lia.
    destruct (drop i a) as [|d r] eqn:D.
    + apply (f_equal String.length) in D. rewrite length_drop in D. simpl in D. lia.
    + apply startswith_iff in H as [r' Hr']. simpl in Hr'. injection Hr' as -> _.
      apply startswith_iff. now exists r.
  - apply (Nb (i - String.length a)). split; [lia|].
    replace i with (String.length a + (i - String.length a)) in H by lia.
    now rewrite <- drop_drop, drop_append_length in H.
Qed.

Lemma startswith_char_append (c : ascii) (a b : string) :
  a <> "" -> startswith (String c "") (a ++ b) = startswith (String c "") a.
Proof.
  destruct a as [|d a]; [congruence|]. intros _. unfold startswith. simpl.
  destruct (ascii_dec c d); [|reflexivity]. now destruct (a ++ b), a.
Qed.

(** *** [posixpath] once more *)

Lemma basename_no_slash (b : string) :
  contains "/" b = false -> posixpath.basename b = b.
Proof.
  intros No. unfold posixpath.basename, posixpath.sep. rewrite rfind_none by exact No.
  change (-1 + 1)%Z with (Z.of_nat 0). now rewrite slice_from_of_nat, drop_0.
Qed.

Lemma basename_after_slash (dir b : string) :
  contains "/" b = false -> posixpath.basename (dir ++ "/" ++ b) = b.
Proof.
  intros No. unfold posixpath.basename, posixpath.sep.
  rewrite rfind_last; [|discriminate | apply single_char_borderless | exact No].
  change 1%Z with (Z.of_nat 1). rewrite <- Nat2Z.inj_add, slice_from_of_nat.
  apply (drop_past dir "/" b).
Qed.

Lemma endswith_slash (a : string) :
  endswith "/" a = true -> exists a', a = a' ++ "/".
Proof.
  unfold endswith. intros [L E]%andb_true_iff.
  apply Z.leb_le in L. apply String.eqb_eq in E. unfold len in *. simpl in L.
  replace (Z.of_nat (String.length a) - Z.of_nat (String.length "/"))%Z
    with (Z.of_nat (String.length a - 1)) in E by (simpl; lia).
  rewrite slice_from_of_nat in E.
  exists (take (String.length a - 1) a). rewrite <- E. symmetry. apply take_drop.
Qed.

(** The last component of a joined path is the second argument, when that
    is a plain name. *)
Lemma basename_join (a b : string) :
  contains "/" b = false -> posixpath.basename (posixpath.join a b) = b.
Proof.
  intros No. unfold posixpath.join, posixpath.sep.
  assert (S : startswith "/" b = false).
  { destruct (startswith "/" b) eqn:E; [|reflexivity].
    apply occurs_at_0 in E. now destruct (proj1 (contains_false_iff _ _) No 0). }
  rewrite S. destruct (String.eqb_spec a "") as [->|Ne]; cbn [orb].
  - now apply basename_no_slash.
  - destruct (endswith "/" a) eqn:E.
    + apply endswith_slash in E as [a' ->]. rewrite append_assoc.
      now apply basename_after_slash.
    + now apply basename_after_slash.
Qed.

(** [splitext] on a name built from a stem and an extension. *)
Lemma splitext_stem_ext (stem ext : string) :
  contains "/" (stem ++ "." ++ ext) = false -> contains "." ext = false ->
  all_dots stem = false ->
  posixpath.splitext (stem ++ "." ++ ext) = (stem, "." ++ ext).
Proof.
  intros NoSlash NoDot Stem. unfold posixpath.splitext, posixpath.sep, posixpath.extsep.
  rewrite (rfind_none "/") by exact NoSlash.
  rewrite rfind_last; [|discriminate | apply single_char_borderless | exact NoDot].
  replace (-1 <? Z.of_nat (String.length stem))%Z with true
    by (symmetry; apply Z.ltb_lt; lia).
  change (-1 + 1)%Z with (Z.of_nat 0). rewrite Z.sub_0_r, Nat2Z.id.
  pose proof (skip_leading_dots_spec (String.length stem) 0 (stem ++ "." ++ ext)) as L.
  cbn [Nat.add] in L. rewrite L by (rewrite length_append; lia).
  rewrite drop_0, take_append_length, Stem, drop_append_length. reflexivity.
Qed.

End LastOccurrence.

(** * More on [get_source_name] *)

Section SourceNameEdges.

Import QgsMapLayer.
Local Open Scope nat_scope.
Local Arguments startswith : simpl never.

(** X1. [get_source_name] never raises: [split] gets a separator that is
    not empty and returns a list that is never empty, so [[-1]] always finds
    a piece. What comes back is the layer's name or a part of its source. *)
Theorem get_source_name_never_raises (layer : Layer) :
  exists base,
    get_source_name layer = Ok base /\
    (base = name layer \/ exists pre post, source layer = pre ++ base ++ post).
Proof.
  destruct (contains ".gpkg|" (source layer)) eqn:G.
  - rewrite (get_source_name_gpkg layer G).
    destruct (rfind_spec "table=" (source layer)) as [[-> _] | (r & -> & _ & _)].
    + exists (source layer). split; [reflexivity|]. right.
      exists "", "". now rewrite append_nil_r.
    + rewrite of_nat_ltb_0. unfold len. rewrite <- Nat2Z.inj_add, slice_from_of_nat.
      eexists. split; [reflexivity|]. right.
      eexists (take _ (source layer)), "". rewrite append_nil_r.
      symmetry. apply take_drop.
  - unfold get_source_name. rewrite G.
    destruct (startswith "/" (source layer) || startswith "C:" (source layer)).
    + eexists. split; [reflexivity|]. right.
      destruct (basename_spec (source layer)) as [NoSlash (dir & D & _)].
      destruct (splitext_spec _ NoSlash) as [_ E].
      exists dir, (snd (posixpath.splitext (posixpath.basename (source layer)))).
      now rewrite <- E.
    + exists (name layer). split; [reflexivity | now left].
Qed.

(** X2. In the GeoPackage branch the result is an end of the source string
    in which ["table="] no longer occurs. *)
Theorem get_source_name_gpkg_suffix (layer : Layer) :
  contains ".gpkg|" (source layer) = true ->
  exists pre table_name,
    get_source_name layer = Ok table_name /\
    source layer = pre ++ table_name /\
    contains "table=" table_name = false.
Proof.
  intros G. rewrite (get_source_name_gpkg layer G).
  destruct (rfind_spec "table=" (source layer)) as [[-> No] | (r & -> & Hr & Max)].
  - exists "", (source layer). split; [reflexivity|]. split; [reflexivity|].
    now apply contains_false_iff.
  - rewrite of_nat_ltb_0. unfold len. rewrite <- Nat2Z.inj_add, slice_from_of_nat.
    eexists (take _ (source layer)), _. split; [reflexivity|].
    split; [symmetry; apply take_drop|].
    apply contains_false_iff. intros j Hj.
    pose proof (occurs_at_bound _ _ _ Hr) as B.
    apply occurs_at_drop in Hj; [|exact B]. apply Max in Hj. simpl in Hj. lia.
Qed.

Lemma get_source_name_gpkg_suffix_witness :
  exists pre table_name,
    get_source_name ToyHost.roads = Ok table_name /\
    source ToyHost.roads = pre ++ table_name /\
    contains "table=" table_name = false.
Proof. apply (get_source_name_gpkg_suffix ToyHost.roads). reflexivity. Defined.

(** X3. Round trip for a table name: a GeoPackage source that ends in
    ["table="] followed by a name without ["table="] gives that name back,
    whatever stands before. *)
Theorem get_source_name_table_round_trip (layer : Layer) (pre table_name : string) :
  source layer = pre ++ "table=" ++ table_name ->
  contains ".gpkg|" (source layer) = true ->
  contains "table=" table_name = false ->
  get_source_name layer = Ok table_name.
Proof.
  intros S G No. rewrite (get_source_name_gpkg layer G), S.
  rewrite rfind_last; [|discriminate | exact table_sep_borderless | exact No].
  rewrite of_nat_ltb_0. unfold len. rewrite <- Nat2Z.inj_add, slice_from_of_nat.
  now rewrite drop_past.
Qed.

Lemma get_source_name_table_round_trip_witness :
  get_source_name ToyHost.roads = Ok "roads".
Proof.
  apply (get_source_name_table_round_trip ToyHost.roads "/data/town.gpkg|layername=r|");
    reflexivity.
Defined.

(** X4. Round trip for a file: a source [dir/stem.ext] of the file branch,
    with no slash in [stem.ext], no dot in [ext] and a [stem] that is not
    made of dots only, gives [stem] back. *)
Theorem get_source_name_file_round_trip (layer : Layer) (dir stem ext : string) :
  source layer = dir ++ "/" ++ stem ++ "." ++ ext ->
  contains ".gpkg|" (source layer) = false ->
  startswith "/" (source layer) || startswith "C:" (source layer) = true ->
  contains "/" (stem ++ "." ++ ext) = false ->
  contains "." ext = false ->
  all_dots stem = false ->
  get_source_name layer = Ok stem.
Proof.
  intros S G P NoSlash NoDot Stem. unfold get_source_name. rewrite G, P, S.
  rewrite basename_after_slash by exact NoSlash.
  now rewrite splitext_stem_ext.
Qed.

Lemma get_source_name_file_round_trip_witness :
  get_source_name ToyHost.rivers = Ok "rivers.v2".
Proof.
  apply (get_source_name_file_round_trip ToyHost.rivers "/data/water" "rivers.v2" "shp");
    reflexivity.
Defined.

(** X5. In the file branch the result is a plain name, without a slash, so
    the output file of the layer stands in the output folder itself: the
    last component of the joined path is the result plus [".shp"]. *)
Theorem get_source_name_file_plain (layer : Layer) :
  contains ".gpkg|" (source layer) = false ->
  startswith "/" (source layer) || startswith "C:" (source layer) = true ->
  exists stem,
    get_source_name layer = Ok stem /\
    contains "/" stem = false /\
    forall output_folder,
      posixpath.basename (posixpath.join output_folder (stem ++ ".shp")) = stem ++ ".shp".
Proof.
  intros G P. unfold get_source_name. rewrite G, P.
  eexists. split; [reflexivity|].
  destruct (basename_spec (source layer)) as [NoSlash _].
  destruct (splitext_spec _ NoSlash) as [_ E].
  assert (N : contains "/" (fst (posixpath.splitext (posixpath.basename (source layer))))
              = false).
  { rewrite E in NoSlash. exact (contains_false_prefix _ _ _ NoSlash). }
  split; [exact N|]. intros output_folder. apply basename_join.
  apply (contains_char_append "/"%char); [exact N | reflexivity].
Qed.

Lemma get_source_name_file_plain_witness :
  exists stem,
    get_source_name ToyHost.rivers = Ok stem /\
    contains "/" stem = false /\
    forall output_folder,
      posixpath.basename (posixpath.join output_folder (stem ++ ".shp")) = stem ++ ".shp".
Proof. apply (get_source_name_file_plain ToyHost.rivers); reflexivity. Defined.

(** X6. A source of the file branch that ends in a slash has an empty base
    name, and the result is the empty string. *)
Theorem get_source_name_trailing_slash (layer : Layer) (dir : string) :
  source layer = dir ++ "/" ->
  contains ".gpkg|" (source layer) = false ->
  startswith "/" (source layer) || startswith "C:" (source layer) = true ->
  get_source_name layer = Ok "".
Proof.
  intros S G P. unfold get_source_name. rewrite G, P, S.
  replace (dir ++ "/") with (dir ++ "/" ++ "") by reflexivity.
  now rewrite basename_after_slash.
Qed.

Lemma get_source_name_trailing_slash_witness :
  get_source_name (QgsMapLayer.mk QgsVectorLayer "tiles" "/data/tiles/" "EPSG:3857") = Ok "".
Proof.
  apply (get_source_name_trailing_slash
           (QgsMapLayer.mk QgsVectorLayer "tiles" "/data/tiles/" "EPSG:3857") "/data/tiles");
    reflexivity.
Defined.

End SourceNameEdges.

(** * More on the export loop and [processAlgorithm] *)

Section ProcessingEdges.

Import QgsMapLayer.
Local Arguments startswith : simpl never.

Context {Host Parameters ProcessingContext : Type}.
Variable api : HostAPI Host Parameters ProcessingContext.

Lemma derived_base_name_unique (filename_option : Z) (layer : Layer) (b1 b2 : string) :
  derived_base_name filename_option layer b1 ->
  derived_base_name filename_option layer b2 -> b1 = b2.
Proof.
  intros [[E1 ->] | [N1 G1]] [[E2 ->] | [N2 G2]]; try congruence; try contradiction.
Qed.

Lemma startswith_slash_shp (base : string) :
  startswith "/" (base ++ ".shp") = startswith "/" base.
Proof.
  destruct base as [|c base]; [reflexivity|].
  now apply (startswith_char_append "/"%char).
Qed.

(** X8. Under "Data Source Name", a GeoPackage layer whose source is an
    absolute path without ["table="] is written to its own source string
    plus [".shp"]: the output folder plays no part in the path. *)
Theorem export_layer_ignores_output_folder (output_folder : string)
  (filename_option : Z) (layer : Layer) (w : World Host) :
  filename_option <> 0 ->
  contains ".gpkg|" (source layer) = true ->
  contains "table=" (source layer) = false ->
  startswith "/" (source layer) = true ->
  exists h ret report,
    export_layer api output_folder filename_option layer w
    = (Ok tt,
       mkWorld h (trace w ++ [WriteAsVectorFormat layer (source layer ++ ".shp") "UTF-8"
                                (crs layer) "ESRI Shapefile" ret;
                              report])).
Proof.
  intros Opt G T Abs.
  destruct (export_layer_exact api output_folder filename_option layer w) as (base & Hb & E).
  cbv zeta in E.
  assert (B : base = source layer).
  { destruct Hb as [[O _] | [_ Hg]]; [contradiction|].
    rewrite (get_source_name_gpkg layer G), rfind_none in Hg by exact T.
    now injection Hg. }
  subst base.
  assert (J : posixpath.join output_folder (source layer ++ ".shp") = source layer ++ ".shp").
  { unfold posixpath.join, posixpath.sep. now rewrite startswith_slash_shp, Abs. }
  rewrite J in E. eexists _, _, _. exact E.
Qed.

(** What the writer keeps, the run keeps from the folder step on. *)
Lemma processAlgorithm_host (P : Host -> Prop) (parameters : Parameters)
  (context : ProcessingContext) (w : World Host) :
  (forall layer fileName fileEncoding destCRS driverName h,
      P h -> P (snd (writeAsVectorFormat api layer fileName fileEncoding destCRS
                       driverName h))) ->
  P (host_after_folder api (output_folder_of api parameters context) (host w)) ->
  P (host (snd (processAlgorithm api parameters context w))).
Proof.
  intros Keep P1.
  pose proof (processAlgorithm_run api parameters context w) as R. cbv zeta in R.
  destruct (fst (folder_step api (output_folder_of api parameters context) (host w)))
    as [[]|e].
  - destruct R as (h & tr & -> & C & _). cbn [snd host].
    exact (writer_chain_keeps api P _ _ _ _ _ _ Keep C P1).
  - rewrite R. exact P1.
Qed.

(** X10. On a host where a folder exists once [os.makedirs] has been called
    on it and the writer removes no folder, a second run right after a first
    one creates nothing: its trace holds no [os.makedirs] and no creation
    message. *)
Theorem processAlgorithm_second_run (parameters : Parameters)
  (context : ProcessingContext) (w : World Host) :
  let output_folder := output_folder_of api parameters context in
  (forall h,
      os_path_exists api output_folder (snd (os_makedirs api output_folder h)) = true) ->
  (forall layer fileName fileEncoding destCRS driverName h,
      os_path_exists api output_folder h = true ->
      os_path_exists api output_folder
        (snd (writeAsVectorFormat api layer fileName fileEncoding destCRS driverName h))
      = true) ->
  let w1 := snd (processAlgorithm api parameters context w) in
  os_path_exists api output_folder (host w1) = true /\
  exists h tr,
    processAlgorithm api parameters context w1 = (Ok [], mkWorld h (trace w1 ++ tr)) /\
    existsb is_makedirs tr = false /\
    existsb is_creation_message tr = false.
Proof.
  cbv zeta. intros Made Kept.
  set (w1 := snd (processAlgorithm api parameters context w)).
  assert (X : os_path_exists api (output_folder_of api parameters context) (host w1) = true).
  { unfold w1.
    apply (processAlgorithm_host
             (fun h => os_path_exists api (output_folder_of api parameters context) h = true));
      [exact Kept|].
    unfold host_after_folder, folder_step.
    destruct (os_path_exists api _ (host w)) eqn:E; [exact E | apply Made]. }
  split; [exact X|].
  pose proof (processAlgorithm_run api parameters context w1) as R. cbv zeta in R.
  unfold folder_step, folder_events in R. rewrite X in R. cbn [fst app] in R.
  destruct R as (h & tr & E & _ & M).
  exists h, tr. split; [exact E|].
  destruct (selected_vector_layers api _) as [|layer layers].
  - subst tr. now split.
  - destruct M as (segs & -> & S). exact (segments_quiet api _ _ _ _ S).
Qed.

(** Every writer call of the loop has the path of its layer. *)
Lemma segments_call_path (output_folder : string) (filename_option : Z)
  (layers : list Layer) (segs : list (list Event))
  (layer : Layer) (fileName fileEncoding destCRS driverName : string) (ret : Z * string) :
  Forall2 (layer_segment api output_folder filename_option) layers segs ->
  In (WriteAsVectorFormat layer fileName fileEncoding destCRS driverName ret) (concat segs) ->
  exists base,
    derived_base_name filename_option layer base /\
    fileName = posixpath.join output_folder (base ++ ".shp").
Proof.
  induction 1 as [|layer' seg layers segs (base & h & Hb & ->) _ IH]; [intros []|].
  cbn [concat]. rewrite in_app_iff. intros [[E|[E|[]]]|I].
  - injection E as E1 E2 _ _ _ _. subst layer' fileName. now exists base.
  - unfold report_of in E. destruct (fst _ =? NoError api); discriminate.
  - exact (IH I).
Qed.

(** X11. Two selected layers with one base name get one output path: under
    "Layer Name" when their display names are equal, under "Data Source
    Name" when [get_source_name] gives the same for both. The loop makes no
    name unique, so the second export goes to the path of the first. *)
Theorem processAlgorithm_same_name_same_path (parameters : Parameters)
  (context : ProcessingContext) (w : World Host) :
  exists r h tr,
    processAlgorithm api parameters context w = (r, mkWorld h (trace w ++ tr)) /\
    forall layer1 layer2 fileName1 fileName2 enc1 enc2 crs1 crs2 drv1 drv2 ret1 ret2,
      In (WriteAsVectorFormat layer1 fileName1 enc1 crs1 drv1 ret1) tr ->
      In (WriteAsVectorFormat layer2 fileName2 enc2 crs2 drv2 ret2) tr ->
      (filename_option_of api parameters context = 0 /\ name layer1 = name layer2) \/
      (filename_option_of api parameters context <> 0 /\
       get_source_name layer1 = get_source_name layer2) ->
      fileName1 = fileName2.
Proof.
  pose proof (processAlgorithm_run api parameters context w) as R. cbv zeta in R.
  assert (Sub : forall e tr, is_writer_call e = true ->
                  In e (folder_events api (output_folder_of api parameters context)
                          (host w) ++ tr) ->
                  In e tr).
  { intros e tr We Ie. apply in_app_iff in Ie as [Ie|Ie]; [|exact Ie].
    unfold folder_events in Ie. destruct (os_path_exists api _ (host w)); [destruct Ie|].
    destruct (fst (os_makedirs api _ (host w)));
      repeat (destruct Ie as [<-|Ie]; [discriminate|]); destruct Ie. }
  destruct (fst (folder_step api (output_folder_of api parameters context) (host w)))
    as [[]|e].
  - destruct R as (h & tr & E & _ & M).
    eexists (Ok []), h, _. split; [exact E|].
    intros layer1 layer2 f1 f2 enc1 enc2 crs1 crs2 drv1 drv2 ret1 ret2 I1 I2 Same.
    apply Sub in I1; [|reflexivity]. apply Sub in I2; [|reflexivity].
    destruct (selected_vector_layers api _) as [|layer layers].
    + subst tr. destruct I1 as [D|[]]. discriminate.
    + destruct M as (segs & -> & S).
      destruct (segments_call_path _ _ _ _ _ _ _ _ _ _ S I1) as (b1 & D1 & ->).
      destruct (segments_call_path _ _ _ _ _ _ _ _ _ _ S I2) as (b2 & D2 & ->).
      do 2 f_equal.
      destruct Same as [[O N] | [O G]].
      * destruct D1 as [[_ ->] | [X _]]; [|contradiction].
        destruct D2 as [[_ ->] | [X _]]; [exact N | contradiction].
      * destruct D1 as [[X _] | [_ G1]]; [contradiction|].
        destruct D2 as [[X _] | [_ G2]]; [contradiction|].
        rewrite G, G2 in G1. now injection G1.
  - eexists (Raise e), _, _. split; [rewrite R; now rewrite <- (app_nil_r (folder_events _ _ _)) at 1|].
    intros layer1 layer2 f1 f2 enc1 enc2 crs1 crs2 drv1 drv2 ret1 ret2 I1 _ _.
    apply Sub in I1; [destruct I1 | reflexivity].
Qed.

(** X12. [processAlgorithm] returns the empty dict whenever its folder step
    completes, whatever the writer answers: a run in which every export
    fails returns like one in which all succeed. The one exception that can
    leave it is the one [os.makedirs] raises; the loop and [get_source_name]
    raise none. *)
Theorem processAlgorithm_returns_empty_dict (parameters : Parameters)
  (context : ProcessingContext) (w : World Host) :
  fst (processAlgorithm api parameters context w)
  = match fst (folder_step api (output_folder_of api parameters context) (host w)) with
    | Ok _ => Ok []
    | Raise e => Raise e
    end.
Proof.
  pose proof (processAlgorithm_run api parameters context w) as R. cbv zeta in R.
  destruct (fst (folder_step api (output_folder_of api parameters context) (host w)))
    as [[]|e].
  - destruct R as (h & tr & -> & _). reflexivity.
  - now rewrite R.
Qed.

End ProcessingEdges.

(** * More runs on the small host *)

Section EdgeRuns.

Import ToyHost.

(** A GeoPackage layer as the host names it, under "Data Source Name": the
    file goes beside the GeoPackage and not into the output folder. *)
Example run_layername_source :
  trace (snd (processAlgorithm ToyHost.api ("/out", 1) tt (start ["/out"] [town_roads])))
  = [WriteAsVectorFormat town_roads "/data/town.gpkg|layername=roads.shp" "UTF-8"
       "EPSG:4326" "ESRI Shapefile" (0, "");
     PushInfo "✅ Layer town roads exported as /data/town.gpkg|layername=roads.shp"].
Proof. reflexivity. Qed.

Lemma export_layer_ignores_output_folder_witness :
  exists h ret report,
    export_layer ToyHost.api "/out" 1 town_roads (start ["/out"] [town_roads])
    = (Ok tt,
       mkWorld h
         [WriteAsVectorFormat town_roads "/data/town.gpkg|layername=roads.shp" "UTF-8"
            "EPSG:4326" "ESRI Shapefile" ret;
          report]).
Proof.
  apply (export_layer_ignores_output_folder ToyHost.api "/out" 1 town_roads
           (start ["/out"] [town_roads]));
    [discriminate | reflexivity | reflexivity | reflexivity].
Defined.

Lemma processAlgorithm_second_run_witness :
  let w1 := snd (processAlgorithm ToyHost.api ("/out", 1) tt (start [] mixed)) in
  os_path_exists ToyHost.api "/out" (host w1) = true /\
  exists h tr,
    processAlgorithm ToyHost.api ("/out", 1) tt w1 = (Ok [], mkWorld h (trace w1 ++ tr)) /\
    existsb is_makedirs tr = false /\
    existsb is_creation_message tr = false.
Proof.
  apply (processAlgorithm_second_run ToyHost.api ("/out", 1) tt (start [] mixed)).
  - intros h. reflexivity.
  - intros layer fileName fileEncoding destCRS driverName h H. cbn in *.
    destruct (destCRS =? "")%string; cbn; [exact H|]. now rewrite H, orb_true_r.
Defined.

Lemma processAlgorithm_same_name_same_path_witness :
  let tr :=
    trace (snd (processAlgorithm ToyHost.api ("/out", 0) tt
                  (start ["/out"] [roads; roads_copy]))) in
  exists fileName1 fileName2 ret1 ret2,
    In (WriteAsVectorFormat roads fileName1 "UTF-8" "EPSG:4326" "ESRI Shapefile" ret1) tr /\
    In (WriteAsVectorFormat roads_copy fileName2 "UTF-8" "EPSG:4326" "ESRI Shapefile" ret2)
       tr /\
    fileName1 = fileName2.
Proof.
  cbv zeta.
  destruct (processAlgorithm_same_name_same_path ToyHost.api ("/out", 0) tt
              (start ["/out"] [roads; roads_copy])) as (r & h & tr & E & Same).
  rewrite E. cbn [snd trace start app].
  assert (T : tr = [WriteAsVectorFormat roads "/out/roads.shp" "UTF-8" "EPSG:4326"
                      "ESRI Shapefile" (0, "");
                    PushInfo "✅ Layer roads exported as /out/roads.shp";
                    WriteAsVectorFormat roads_copy "/out/roads.shp" "UTF-8" "EPSG:4326"
                      "ESRI Shapefile" (0, "");
                    PushInfo "✅ Layer roads exported as /out/roads.shp"]).
  { vm_compute in E. now injection E. }
  assert (I1 : In (WriteAsVectorFormat roads "/out/roads.shp" "UTF-8" "EPSG:4326"
                     "ESRI Shapefile" (0, "")) tr)
    by (rewrite T; now left).
  assert (I2 : In (WriteAsVectorFormat roads_copy "/out/roads.shp" "UTF-8" "EPSG:4326"
                     "ESRI Shapefile" (0, "")) tr)
    by (rewrite T; right; right; now left).
  exists "/out/roads.shp", "/out/roads.shp", (0, ""), (0, "").
  split; [exact I1|]. split; [exact I2|].
  apply (Same _ _ _ _ _ _ _ _ _ _ _ _ I1 I2). left. split; reflexivity.
Defined.

End EdgeRuns.

(** * Pieces, dot files and the loop over a longer list *)

Section Composition.

Import QgsMapLayer.
Local Open Scope nat_scope.
Local Arguments startswith : simpl never.

Lemma concat_cons (sep x : string) (l : list string) :
  l <> [] -> String.concat sep (x :: l) = x ++ sep ++ String.concat sep l.
Proof. destruct l; [congruence | reflexivity]. Qed.

Lemma concat_split_pieces (sep : string) (m : nat) (s : string) :
  String.concat sep (split_pieces m sep s) = s.
Proof.
  revert s; induction m as [|m IH]; intros s; [reflexivity|].
  cbn [split_pieces].
  destruct (find_spec sep s) as [[-> _] | (p & -> & Hp & _)]; [reflexivity|].
  rewrite of_nat_ltb_0, concat_cons by apply split_pieces_not_nil.
  rewrite IH. unfold len. rewrite <- Nat2Z.inj_add, slice_from_of_nat, slice_to_of_nat.
  destruct Hp as [Hle [post Hpost]%startswith_iff].
  rewrite <- drop_drop, Hpost, drop_append_length, <- Hpost.
  apply take_drop.
Qed.

(** X15. Round trip of the split of line 123: joining the pieces with the
    separator gives the string back, so the pieces lose nothing of it. *)
Theorem split_concat_round_trip (sep s : string) :
  sep <> "" ->
  exists pieces, split sep s = Ok pieces /\ String.concat sep pieces = s.
Proof.
  intros Hsep. unfold split. apply String.eqb_neq in Hsep. rewrite Hsep.
  eexists. split; [reflexivity | apply concat_split_pieces].
Qed.

Lemma split_concat_round_trip_witness :
  exists pieces,
    split "table=" "/data/town.gpkg|layername=r|table=roads" = Ok pieces /\
    String.concat "table=" pieces = "/data/town.gpkg|layername=r|table=roads".
Proof.
  apply (split_concat_round_trip "table=" "/data/town.gpkg|layername=r|table=roads").
  discriminate.
Defined.

Lemma all_dots_last (dots : string) :
  all_dots dots = true -> dots <> "" ->
  exists d, dots = d ++ "." /\ all_dots d = true.
Proof.
  induction dots as [|c dots IH]; [congruence|]. cbn [all_dots].
  intros [C D]%andb_true_iff _. apply Ascii.eqb_eq in C. subst c.
  destruct dots as [|c' dots'].
  - now exists "".
  - destruct (IH D ltac:(discriminate)) as (d & -> & Hd).
    exists (String "." d). split; [reflexivity|]. cbn [all_dots]. now rewrite Hd.
Qed.

Lemma splitext_dot_file (dots rest : string) :
  contains "/" (dots ++ rest) = false -> all_dots dots = true ->
  contains "." rest = false ->
  posixpath.splitext (dots ++ rest) = (dots ++ rest, "").
Proof.
  intros NoSlash Dots NoDot. unfold posixpath.splitext, posixpath.sep, posixpath.extsep.
  rewrite (rfind_none "/") by exact NoSlash.
  destruct (string_dec dots "") as [->|Ne].
  - cbn [append]. now rewrite rfind_none by exact NoDot.
  - destruct (all_dots_last dots Dots Ne) as (d & -> & Hd).
    rewrite append_assoc.
    rewrite rfind_last; [|discriminate | apply single_char_borderless | exact NoDot].
    replace (-1 <? Z.of_nat (String.length d))%Z with true
      by (symmetry; apply Z.ltb_lt; lia).
    change (-1 + 1)%Z with (Z.of_nat 0). rewrite Z.sub_0_r, Nat2Z.id.
    pose proof (skip_leading_dots_spec (String.length d) 0 (d ++ "." ++ rest)) as L.
    cbn [Nat.add] in L. rewrite L by (rewrite length_append; lia).
    now rewrite drop_0, take_append_length, Hd.
Qed.

(** X14. A file whose name has dots at its start only keeps its whole name:
    for a source [dir/name] of the file branch where [name] is some dots
    followed by a text without dot, the result is [name], nothing
    stripped. *)
Theorem get_source_name_dot_file (layer : Layer) (dir dots rest : string) :
  source layer = dir ++ "/" ++ dots ++ rest ->
  contains ".gpkg|" (source layer) = false ->
  startswith "/" (source layer) || startswith "C:" (source layer) = true ->
  contains "/" (dots ++ rest) = false ->
  all_dots dots = true ->
  contains "." rest = false ->
  get_source_name layer = Ok (dots ++ rest).
Proof.
  intros S G P NoSlash Dots NoDot. unfold get_source_name. rewrite G, P, S.
  rewrite basename_after_slash by exact NoSlash.
  now rewrite splitext_dot_file.
Qed.

Lemma get_source_name_dot_file_witness :
  get_source_name (QgsMapLayer.mk QgsVectorLayer "draft" "/home/gis/.draft" "EPSG:4326")
  = Ok ".draft".
Proof.
  apply (get_source_name_dot_file
           (QgsMapLayer.mk QgsVectorLayer "draft" "/home/gis/.draft" "EPSG:4326")
           "/home/gis" "." "draft");
    reflexivity.
Defined.

Context {Host Parameters ProcessingContext : Type}.
Variable api : HostAPI Host Parameters ProcessingContext.

(** X13. The loop over a list in two parts: exporting [layers1 ++ layers2]
    is exporting [layers1] and then [layers2] from the world the first part
    leaves, since no turn of the loop raises. *)
Theorem for_each_export_app (output_folder : string) (filename_option : Z)
  (layers1 layers2 : list Layer) (w : World Host) :
  for_each (layers1 ++ layers2) (export_layer api output_folder filename_option) w
  = for_each layers2 (export_layer api output_folder filename_option)
      (snd (for_each layers1 (export_layer api output_folder filename_option) w)).
Proof.
  revert w; induction layers1 as [|layer layers1 IH]; intros w; [reflexivity|].
  cbn [app for_each]. unfold bindM.
  destruct (export_layer_exact api output_folder filename_option layer w) as (base & _ & E).
  cbv zeta in E. rewrite E. apply IH.
Qed.

End Composition.
